(** * Cape Town traffic optimisation: the front-end logic against its specification

  A shallow embedding of the functions of the React front end that the
  specification talks about, and of the route search that the front end
  calls over HTTP (modelled from the specification, its code being no part
  of the front end), followed by the properties they satisfy.

  JavaScript numbers are idealised as rationals ([Q]): comparisons and the
  arithmetic of the sources are exact here, rounding of IEEE doubles is not
  modelled.  A property that the rounding of a sum, product or quotient in
  double precision could decide the other way is therefore stated within
  the range of inputs in which the two agree, or with a margin that the
  rounding does not reach, and says so.  Strings are [string]; arrays are
  [list]; React state is passed explicitly (a state setter
  [set(prev => next)] is the function [prev -> next]). *)

From Stdlib Require Import List String Ascii Bool Arith ZArith QArith Qround Qabs.
From Stdlib Require Import Reals Psatz DecimalString DecimalFacts DecimalPos Permutation.
Import ListNotations.

Open Scope string_scope.
Open Scope Z_scope.
Open Scope Q_scope.

(* ================================================================== *)
(** ** JavaScript primitives used by the sources *)
(* ================================================================== *)

Module Js.

(** [Math.max(a, b)] and [Math.min(a, b)] on finite numbers. *)
Definition Math_max (a b : Q) : Q := if Qlt_le_dec a b then b else a.
Definition Math_min (a b : Q) : Q := if Qlt_le_dec b a then b else a.

(** [Math.floor(x)]. *)
Definition Math_floor (x : Q) : Z := Qfloor x.

(** [Math.round(x)]: the nearest integer, a tie going up. *)
Definition Math_round (x : Q) : Z := Qfloor (x + (1 # 2)).

(** [String(n)] (also the conversion done by a template literal) for an
    integral number: its decimal digits, with a sign when negative.
    JavaScript switches to exponent notation from 1e21 on; the values
    rendered by the front end are far below. *)
Definition toString (n : Z) : string := NilZero.string_of_int (Z.to_int n).

(** [Array.prototype.findIndex]: the index of the first element that
    satisfies [f], [-1] when there is none. *)
Fixpoint findIndex {A : Type} (f : A -> bool) (l : list A) : Z :=
  match l with
  | [] => (-1)%Z
  | x :: t =>
      if f x then 0%Z
      else let r := findIndex f t in
           if (r <? 0)%Z then (-1)%Z else (r + 1)%Z
  end.

(** [a[i] = v] on a copy of [a], for an index inside the array.  (Outside
    the array JavaScript would extend it; [updateTrafficPoint] only writes
    at an index returned by [findIndex], see [findIndex_bounds].) *)
Fixpoint array_set {A : Type} (l : list A) (i : nat) (v : A) : list A :=
  match l, i with
  | [], _ => []
  | _ :: t, O => v :: t
  | x :: t, S j => x :: array_set t j v
  end.

(** [s.includes(sub)]: [sub] occurs somewhere in [s]. *)
Fixpoint includes (s sub : string) : bool :=
  if String.prefix sub s then true
  else match s with
       | EmptyString => false
       | String _ rest => includes rest sub
       end.

Fixpoint repeat_char (c : ascii) (n : nat) : string :=
  match n with
  | O => EmptyString
  | S n' => String c (repeat_char c n')
  end.

(** [s.padStart(targetLength, c)] for a filler of one character, as the
    sources use it: [s] itself when it is long enough. *)
Definition padStart (s : string) (targetLength : nat) (c : ascii) : string :=
  repeat_char c (targetLength - String.length s) ++ s.

(** [x.toFixed(f)]: the sign, then the integer [n] nearest to [|x| * 10^f]
    (the larger one at a tie) written with [f] digits after the point.
    (From 1e21 on JavaScript prints the number as [String] does; the values
    of the front end are far below.  The digits are those of the exact
    number; where [x] is a quotient rounded to a double that lies next to a
    tie, the code may print the neighbouring last digit.) *)
Definition toFixed (x : Q) (f : nat) : string :=
  let n := Qfloor (Qabs x * inject_Z (10 ^ Z.of_nat f) + (1 # 2)) in
  let sign := if Qlt_le_dec x 0 then "-" else "" in
  match f with
  | O => sign ++ toString n
  | S _ =>
      sign ++ toString (n / 10 ^ Z.of_nat f) ++ "."
      ++ padStart (toString (n mod 10 ^ Z.of_nat f)) f "0"%char
  end.

End Js.

(* ================================================================== *)
(** ** The traffic-data context (provider of the live traffic store) *)
(* ================================================================== *)

Module TrafficDataContext.
Import Js.

(** [interface TrafficData] *)
Record TrafficData : Type := mkTrafficData {
  road_segment_id : string;
  latitude : Q;
  longitude : Q;
  flow_speed : Q;
  congestion_level : Q;
  timestamp : string
}.

(** The callback handed to [setTrafficData] by [updateTrafficPoint]:
    the next state of the store as a function of the previous one. *)
Definition updateTrafficPoint (point : TrafficData)
    (prev : list TrafficData) : list TrafficData :=
  let index :=
    findIndex (fun p => String.eqb (road_segment_id p) (road_segment_id point)) prev in
  if (index >=? 0)%Z then
    let updated := prev in
    array_set updated (Z.to_nat index) point
  else
    prev ++ [point].

(** The two operations the provider exposes; the store changes in no
    other way (the provider holds no timer and no effect). *)
Inductive Action : Type :=
| SetTrafficData (data : list TrafficData)
| UpdateTrafficPoint (point : TrafficData).

Definition step (st : list TrafficData) (a : Action) : list TrafficData :=
  match a with
  | SetTrafficData data => data
  | UpdateTrafficPoint point => updateTrafficPoint point st
  end.

Definition run (st : list TrafficData) (acts : list Action) : list TrafficData :=
  fold_left step acts st.

(** Reading the store: the entry of a segment, as a consumer of
    [trafficData] finds it. *)
Definition entryOf (id : string) (st : list TrafficData) : option TrafficData :=
  find (fun p => String.eqb (road_segment_id p) id) st.

(** An action that carries data for segment [id]. *)
Definition touches (id : string) (a : Action) : Prop :=
  match a with
  | SetTrafficData _ => True
  | UpdateTrafficPoint point => road_segment_id point = id
  end.

End TrafficDataContext.

(* ================================================================== *)
(** ** The traffic map: colour of a traffic marker *)
(* ================================================================== *)

Module TrafficMap.

(** [getTrafficColor]: green for light, orange for moderate and red for
    heavy traffic, by the congestion level of one traffic point. *)
Definition getTrafficColor (congestionLevel : Q) : string :=
  if Qlt_le_dec congestionLevel (3 # 10) then "#4CAF50"
  else if Qlt_le_dec congestionLevel (6 # 10) then "#FF9800"
  else "#F44336".

(** The map shows the same [TrafficData] records as the traffic-data
    context holds (the interface is declared again in the map's file, with
    the same fields). *)
Definition TrafficData := TrafficDataContext.TrafficData.

(** An element of [capeTownSegments]. *)
Record Segment : Type := mkSegment {
  id : string;
  lat : Q;
  lng : Q;
  name : string
}.

Definition capeTownSegments : list Segment :=
  [ mkSegment "CT_001" (- (338992 # 10000)) (186292 # 10000) "N1 Highway (Bellville)";
    mkSegment "CT_002" (- (339769 # 10000)) (185845 # 10000) "N2 Highway (Guguletu)";
    mkSegment "CT_003" (- (339731 # 10000)) (184632 # 10000) "M3 Highway (Newlands)";
    mkSegment "CT_004" (- (339249 # 10000)) (184241 # 10000) "Long Street (City Bowl)";
    mkSegment "CT_005" (- (339205 # 10000)) (184235 # 10000) "Strand Street (City Centre)";
    mkSegment "CT_006" (- (338927 # 10000)) (185408 # 10000) "Voortrekker Road (Goodwood)";
    mkSegment "CT_007" (- (339149 # 10000)) (183796 # 10000) "Main Road (Sea Point)";
    mkSegment "CT_008" (- (339508 # 10000)) (183776 # 10000) "Victoria Road (Camps Bay)";
    mkSegment "CT_009" (- (339317 # 10000)) (184145 # 10000) "Kloof Street (Gardens)";
    mkSegment "CT_010" (- (339570 # 10000)) (184709 # 10000) "Rondebosch Main Road" ].

(** What [generateMockTrafficData] reads from outside: the results of its
    calls of [Math.random()], in the order of the calls, and for each
    segment the hour and the ISO time of the clock. *)
Record Env : Type := mkEnv {
  random : nat -> Q;
  getHours : nat -> Z;
  toISOString : nat -> string
}.

(** The congestion level drawn for a segment (before rounding). *)
Definition drawCongestion (currentHour : Z) (r : Q) : Q :=
  if ((7 <=? currentHour)%Z && (currentHour <=? 9)%Z
      || (17 <=? currentHour)%Z && (currentHour <=? 19)%Z)%bool
  then r * (5 # 10) + (4 # 10)
  else if ((10 <=? currentHour)%Z && (currentHour <=? 16)%Z)%bool
  then r * (4 # 10) + (2 # 10)
  else r * (3 # 10) + (1 # 10).

(** The body of the [forEach] of [generateMockTrafficData] for the segment
    with index [index]: three draws, taken in this order. *)
Definition mockPoint (env : Env) (index : nat) (segment : Segment) : TrafficData :=
  let currentHour := getHours env index in
  let congestionLevel := drawCongestion currentHour (random env (3 * index)) in
  let baseSpeed := if Js.includes (name segment) "Highway" then 80 else 50 in
  let currentSpeed := baseSpeed * (1 - congestionLevel) in
  {| TrafficDataContext.road_segment_id := id segment;
     TrafficDataContext.latitude :=
       lat segment + (random env (3 * index + 1) - (5 # 10)) * (2 # 1000);
     TrafficDataContext.longitude :=
       lng segment + (random env (3 * index + 2) - (5 # 10)) * (2 # 1000);
     TrafficDataContext.flow_speed := inject_Z (Js.Math_round currentSpeed);
     TrafficDataContext.congestion_level :=
       inject_Z (Js.Math_round (congestionLevel * 100)) / 100;
     TrafficDataContext.timestamp := toISOString env index |}.

Fixpoint mockFrom (env : Env) (index : nat) (segments : list Segment)
    : list TrafficData :=
  match segments with
  | [] => []
  | segment :: rest => mockPoint env index segment :: mockFrom env (S index) rest
  end.

(** [generateMockTrafficData] *)
Definition generateMockTrafficData (env : Env) : list TrafficData :=
  mockFrom env O capeTownSegments.

(** What one [fetch] of [fetchTrafficData] comes to; an [ok] response
    carries a body whose [traffic_data] is an array or is missing. *)
Inductive TrafficResponse : Type :=
| Rejected
| NotOk
| Ok (traffic_data : option (list TrafficData)).

Definition endpoints : list string :=
  [ "http://localhost:8000/api/traffic/current";
    "/api/traffic/current";
    "http://traffic-api:8000/api/traffic/current" ].

(** The loop of [fetchTrafficData]: the data of the first endpoint that
    answers [ok] with a [traffic_data] that is not empty. *)
Fixpoint tryTraffic (fetch : string -> TrafficResponse) (eps : list string)
    : option (list TrafficData) :=
  match eps with
  | [] => None
  | endpoint :: rest =>
      match fetch endpoint with
      | Ok (Some (point :: more)) => Some (point :: more)
      | _ => tryTraffic fetch rest
      end
  end.

(** [fetchTrafficData]: the next value of the state [trafficData]. *)
Definition fetchTrafficData (fetch : string -> TrafficResponse) (env : Env)
    : list TrafficData :=
  match tryTraffic fetch endpoints with
  | Some data => data
  | None => generateMockTrafficData env
  end.

Definition DEFAULT_CENTER : Q * Q := (- (339249 # 10000), 184241 # 10000).

(** The effect that follows a change of [trafficData]: the next value of
    the state [mapCenter]. *)
Definition updateMapCenter (trafficData : list TrafficData) (mapCenter : Q * Q)
    : Q * Q :=
  if (0 <? List.length trafficData)%nat then
    let latSum :=
      fold_left (fun sum point => sum + TrafficDataContext.latitude point)
        trafficData 0 in
    let lngSum :=
      fold_left (fun sum point => sum + TrafficDataContext.longitude point)
        trafficData 0 in
    let centerLat := latSum / inject_Z (Z.of_nat (List.length trafficData)) in
    let centerLng := lngSum / inject_Z (Z.of_nat (List.length trafficData)) in
    if (Qle_bool (- (341 # 10)) centerLat && Qle_bool centerLat (- (338 # 10))
        && Qle_bool (182 # 10) centerLng && Qle_bool centerLng (187 # 10))%bool
    then (centerLat, centerLng)
    else DEFAULT_CENTER
  else mapCenter.

(** The percentage in the popup of a marker:
    [Math.round(point.congestion_level * 100)]. *)
Definition congestionPercent (point : TrafficData) : Z :=
  Js.Math_round (TrafficDataContext.congestion_level point * 100).

End TrafficMap.

(* ================================================================== *)
(** ** The prediction dashboard: the predicted congestion of a road *)
(* ================================================================== *)

Module PredictionDashboard.
Import Js.

(** [predictedCongestion] of [generatePredictions], as a function of the
    two random draws it is computed from. *)
Definition predictedCongestion (currentCongestion predictedChange : Q) : Q :=
  Math_max (1 # 10) (Math_min (9 # 10) (currentCongestion + predictedChange)).

(** [interface TrafficPrediction] *)
Record TrafficPrediction : Type := mkTrafficPrediction {
  road_segment_id : string;
  road_name : string;
  current_congestion : Q;
  predicted_congestion : Q;
  prediction_time : string;
  confidence : Q;
  trend : string;
  risk_level : string
}.

(** The [trend] of [generatePredictions], by the predicted change. *)
Definition trendOf (predictedChange : Q) : string :=
  if Qlt_le_dec (1 # 10) predictedChange then "increasing"
  else if Qlt_le_dec predictedChange (- (1 # 10)) then "decreasing"
  else "stable".

(** The [riskLevel] of [generatePredictions], by the predicted congestion. *)
Definition riskLevelOf (predictedCongestion : Q) : string :=
  if Qlt_le_dec (7 # 10) predictedCongestion then "high"
  else if Qlt_le_dec (4 # 10) predictedCongestion then "medium"
  else "low".

(** The callback of [capeRoads.map] in [generatePredictions] for the road
    with index [index]: three calls of [Math.random()], in this order, and
    one reading of the clock. *)
Definition predict (random : nat -> Q) (clock : nat -> string) (index : nat)
    (road : string * string) : TrafficPrediction :=
  let currentCongestion := random (3 * index)%nat * (8 # 10) + (1 # 10) in
  let predictedChange := (random (3 * index + 1)%nat - (5 # 10)) * (4 # 10) in
  let predicted := predictedCongestion currentCongestion predictedChange in
  {| road_segment_id := fst road;
     road_name := snd road;
     current_congestion := currentCongestion;
     predicted_congestion := predicted;
     prediction_time := clock index;
     confidence := random (3 * index + 2)%nat * (3 # 10) + (7 # 10);
     trend := trendOf predictedChange;
     risk_level := riskLevelOf predicted |}.

Definition capeRoads : list (string * string) :=
  [ ("CT_001", "N1 Highway (Bellville)"); ("CT_002", "N2 Highway (Guguletu)");
    ("CT_003", "M3 Highway (Newlands)"); ("CT_004", "Long Street (City Bowl)");
    ("CT_005", "Strand Street (City Centre)");
    ("CT_006", "Voortrekker Road (Goodwood)"); ("CT_007", "Main Road (Sea Point)");
    ("CT_008", "Victoria Road (Camps Bay)") ].

Fixpoint predictFrom (random : nat -> Q) (clock : nat -> string) (index : nat)
    (roads : list (string * string)) : list TrafficPrediction :=
  match roads with
  | [] => []
  | road :: rest =>
      predict random clock index road :: predictFrom random clock (S index) rest
  end.

(** [mockPredictions] of [generatePredictions]. *)
Definition mockPredictions (random : nat -> Q) (clock : nat -> string)
    : list TrafficPrediction :=
  predictFrom random clock O capeRoads.

(** [interface HourlyPrediction] *)
Record HourlyPrediction : Type := mkHourlyPrediction {
  hour : string;
  avg_speed : Q;
  hourly_congestion_level : Q;
  hourly_confidence : Q
}.

Definition isRushTime (hourNum : Z) : bool :=
  ((7 <=? hourNum)%Z && (hourNum <=? 9)%Z
   || (17 <=? hourNum)%Z && (hourNum <=? 19)%Z)%bool.

(** The body of the loop over the next twelve hours in
    [generatePredictions]: [hourNum] and [label] are read from the clock,
    [r1], [r2] and [r3] are its three calls of [Math.random()] in order. *)
Definition forecast (hourNum : Z) (label : string) (r1 r2 r3 : Q)
    : HourlyPrediction :=
  {| hour := label;
     avg_speed := if isRushTime hourNum then 25 + r1 * 15 else 40 + r1 * 20;
     hourly_congestion_level :=
       if isRushTime hourNum then (6 # 10) + r2 * (3 # 10)
       else (2 # 10) + r2 * (3 # 10);
     hourly_confidence := r3 * (2 # 10) + (8 # 10) |}.

(** [getRiskColor] *)
Definition getRiskColor (level : string) : string :=
  match level with
  | "high" => "#F44336"
  | "medium" => "#FF9800"
  | "low" => "#4CAF50"
  | _ => "#9E9E9E"
  end.

(** [getCongestionColor] *)
Definition getCongestionColor (level : Q) : string :=
  if Qlt_le_dec level (3 # 10) then "#4CAF50"
  else if Qlt_le_dec level (6 # 10) then "#FF9800"
  else "#F44336".

(** [highRiskRoads]: the predictions listed in the alert. *)
Definition highRiskRoads (predictions : list TrafficPrediction)
    : list TrafficPrediction :=
  filter (fun p => String.eqb (risk_level p) "high") predictions.

(** The text of a percentage chip: [(x * 100).toFixed(0)] and a percent sign. *)
Definition percentLabel (x : Q) : string := toFixed (x * 100) 0 ++ "%".

End PredictionDashboard.

(* ================================================================== *)
(** ** The route planner *)
(* ================================================================== *)

Module RoutePlanner.
Import Js.

(** [interface Destination] *)
Record Destination : Type := mkDestination {
  name : string;
  lat : Q;
  lng : Q;
  type : string
}.

(** [traffic_conditions?: any]: the server sends either a plain string or
    an object with an optional [status]. *)
Inductive TrafficConditions : Type :=
| ConditionString (s : string)
| ConditionObject (status : option string).

(** The [geometry] of a route: its [type] and its [coordinates]. *)
Record Geometry : Type := mkGeometry {
  geometry_type : string;
  coordinates : list (list Q)
}.

(** The type of [start_location] and [end_location]. *)
Record Location : Type := mkLocation {
  location_name : string;
  location_lat : Q;
  location_lng : Q
}.

(** [interface RouteResult]; an optional field is an [option]. *)
Record RouteResult : Type := mkRouteResult {
  route_id : string;
  route_name : option string;
  total_distance : Q;
  estimated_time : Q;
  normal_time : option Q;
  traffic_delay : option Q;
  geometry : Geometry;
  start_location : option Location;
  end_location : option Location;
  traffic_conditions : option TrafficConditions
}.

(** The body of the POST request built by [planRoute]. *)
Record RouteRequest : Type := mkRouteRequest {
  origin_lat : Q;
  origin_lng : Q;
  destination_lat : Q;
  destination_lng : Q;
  optimize_for : string;
  avoid_tolls : bool
}.

(** What one [fetch] of the loop in [planRoute] comes to: the promise is
    rejected (also when [response.json()] rejects), the response is not
    [ok], or it is [ok] and carries a body. *)
Inductive FetchOutcome : Type :=
| Rejected
| NotOk
| Ok (data : RouteResult).

(** The state of the component that [planRoute] reads and writes. *)
Record PlannerState : Type := mkPlannerState {
  origin : option Destination;
  destination : option Destination;
  routeResult : option RouteResult;
  loading : bool;
  error : option string
}.

Definition endpoints : list string :=
  [ "http://localhost:8000/api/routes/optimize";
    "/api/routes/optimize";
    "http://traffic-api:8000/api/routes/optimize" ].

(** The [for] loop of [planRoute]: the body of the first endpoint that
    answers [ok]; a rejected or not-[ok] answer moves on to the next. *)
Fixpoint tryEndpoints (fetch : string -> RouteRequest -> FetchOutcome)
    (body : RouteRequest) (eps : list string) : option RouteResult :=
  match eps with
  | [] => None
  | endpoint :: rest =>
      match fetch endpoint body with
      | Ok data => Some data
      | Rejected | NotOk => tryEndpoints fetch body rest
      end
  end.

(** [planRoute], the network given as the function [fetch].  Every
    rejection is caught inside the loop, so the outer [catch] is never
    entered; [finally] resets [loading] on both ways out of the [try]. *)
Definition planRoute (fetch : string -> RouteRequest -> FetchOutcome)
    (st : PlannerState) : PlannerState :=
  match origin st, destination st with
  | Some o, Some d =>
      let body := {| origin_lat := lat o; origin_lng := lng o;
                     destination_lat := lat d; destination_lng := lng d;
                     optimize_for := "time"; avoid_tolls := false |} in
      match tryEndpoints fetch body endpoints with
      | Some data =>
          {| origin := origin st; destination := destination st;
             routeResult := Some data; loading := false; error := None |}
      | None =>
          {| origin := origin st; destination := destination st;
             routeResult := routeResult st; loading := false;
             error := Some "Route optimization service temporarily unavailable" |}
      end
  | _, _ =>
      {| origin := origin st; destination := destination st;
         routeResult := routeResult st; loading := loading st;
         error := Some "Please select both origin and destination" |}
  end.

(** [formatTime] *)
Definition formatTime (seconds : Q) : string :=
  let minutes := Math_round (seconds / 60) in
  if (minutes <? 60)%Z then
    toString minutes ++ " min"
  else
    let hours := Math_floor (inject_Z minutes / 60) in
    let remainingMinutes := Z.rem minutes 60 in
    toString hours ++ "h " ++ toString remainingMinutes ++ "m".

(** [getTrafficColor]: the colour of a condition label. *)
Definition getTrafficColor (condition : option string) : string :=
  match condition with
  | Some "light" => "#4CAF50"
  | Some "moderate" => "#FF9800"
  | Some "heavy" => "#F44336"
  | _ => "#757575"
  end.







(** [formatDistance] *)
Definition formatDistance (meters : Q) : string :=
  if Qlt_le_dec meters 1000 then
    toString (Math_round meters) ++ " m"
  else
    toFixed (meters / 1000) 1 ++ " km".

(** [selectPopularRoute]: the route becomes the route result; when it
    carries both locations they become the two ends. *)
Definition selectPopularRoute (route : RouteResult) (st : PlannerState)
    : PlannerState :=
  match start_location route, end_location route with
  | Some start, Some finish =>
      {| origin := Some {| name := location_name start;
                           lat := location_lat start;
                           lng := location_lng start;
                           type := "selected" |};
         destination := Some {| name := location_name finish;
                                lat := location_lat finish;
                                lng := location_lng finish;
                                type := "selected" |};
         routeResult := Some route;
         loading := loading st;
         error := error st |}
  | _, _ =>
      {| origin := origin st;
         destination := destination st;
         routeResult := Some route;
         loading := loading st;
         error := error st |}
  end.

(** What one [fetch] of [fetchDestinations] comes to; the body of an [ok]
    response has a [status] and may have [destinations]. *)
Inductive DestinationsResponse : Type :=
| DestinationsRejected
| DestinationsNotOk
| DestinationsOk (status : string) (destinations : option (list Destination)).

Definition destinationEndpoints : list string :=
  [ "http://localhost:8000/api/destinations/popular";
    "/api/destinations/popular";
    "http://traffic-api:8000/api/destinations/popular" ].

(** The destinations [fetchDestinations] falls back to. *)
Definition fallbackDestinations : list Destination :=
  [ mkDestination "V&A Waterfront" (- (339017 # 10000)) (184211 # 10000) "shopping";
    mkDestination "Table Mountain" (- (339628 # 10000)) (184098 # 10000) "attraction";
    mkDestination "Cape Town International Airport"
      (- (339685 # 10000)) (186017 # 10000) "transport";
    mkDestination "University of Cape Town"
      (- (339570 # 10000)) (184709 # 10000) "education";
    mkDestination "Cape Town CBD" (- (339249 # 10000)) (184241 # 10000) "business";
    mkDestination "Camps Bay Beach" (- (339508 # 10000)) (183776 # 10000) "recreation";
    mkDestination "Kirstenbosch Gardens"
      (- (339881 # 10000)) (184326 # 10000) "attraction";
    mkDestination "Stellenbosch Wine Route"
      (- (339321 # 10000)) (188602 # 10000) "tourism" ].

(** The loop of [fetchDestinations]: the destinations of the first endpoint
    that answers [ok] with the status ['success'] and with destinations. *)
Fixpoint tryDestinations (fetch : string -> DestinationsResponse)
    (eps : list string) : option (list Destination) :=
  match eps with
  | [] => None
  | endpoint :: rest =>
      match fetch endpoint with
      | DestinationsOk status (Some destinations) =>
          if String.eqb status "success" then Some destinations
          else tryDestinations fetch rest
      | _ => tryDestinations fetch rest
      end
  end.

(** [fetchDestinations]: the next value of the state [destinations]. *)
Definition fetchDestinations (fetch : string -> DestinationsResponse)
    : list Destination :=
  match tryDestinations fetch destinationEndpoints with
  | Some destinations => destinations
  | None => fallbackDestinations
  end.

End RoutePlanner.

(* ================================================================== *)
(** ** The real-time monitor: live traffic sensors *)
(* ================================================================== *)

Module RealTimeData.
Import Js.

(** [interface LiveTrafficData] *)
Record LiveTrafficData : Type := mkLiveTrafficData {
  road_segment_id : string;
  road_name : string;
  current_speed : Q;
  congestion_level : Q;
  last_update : string;
  status : string
}.

Definition capeRoads : list string :=
  [ "N1 Highway (Bellville)"; "N2 Highway (Guguletu)"; "M3 Highway (Newlands)";
    "Long Street (City Bowl)"; "Strand Street (City Centre)";
    "Voortrekker Road (Goodwood)"; "Main Road (Sea Point)";
    "Victoria Road (Camps Bay)" ].

(** The [status] of [updateLiveData], by the congestion drawn. *)
Definition statusOf (congestion : Q) : string :=
  if Qlt_le_dec (7 # 10) congestion then "congested"
  else if Qlt_le_dec (4 # 10) congestion then "slow"
  else "normal".

(** The identifier of the road with index [index]:
    [`CT_${String(index + 1).padStart(3, '0')}`]. *)
Definition segmentId (index : nat) : string :=
  "CT_" ++ padStart (toString (Z.of_nat index + 1)) 3 "0"%char.

(** The callback of [capeRoads.map] in [updateLiveData] for the road with
    index [index]: two calls of [Math.random()], the speed first, and one
    reading of the clock. *)
Definition liveEntry (random : nat -> Q) (clock : nat -> string) (index : nat)
    (road : string) : LiveTrafficData :=
  let speed := random (2 * index)%nat * 50 + 20 in
  let congestion := random (2 * index + 1)%nat in
  {| road_segment_id := segmentId index;
     road_name := road;
     current_speed := speed;
     congestion_level := congestion;
     last_update := clock index;
     status := statusOf congestion |}.

Fixpoint liveFrom (random : nat -> Q) (clock : nat -> string) (index : nat)
    (roads : list string) : list LiveTrafficData :=
  match roads with
  | [] => []
  | road :: rest =>
      liveEntry random clock index road :: liveFrom random clock (S index) rest
  end.

(** [newLiveData] of [updateLiveData]. *)
Definition newLiveData (random : nat -> Q) (clock : nat -> string)
    : list LiveTrafficData :=
  liveFrom random clock O capeRoads.

(** [getStatusColor] *)
Definition getStatusColor (status : string) : string :=
  match status with
  | "healthy" | "normal" | "active" => "#4CAF50"
  | "warning" | "slow" | "delayed" => "#FF9800"
  | "error" | "congested" | "inactive" => "#F44336"
  | _ => "#9E9E9E"
  end.

End RealTimeData.

(* ================================================================== *)
(** ** The analytics page: rush hours *)
(* ================================================================== *)

Module TrafficAnalytics.

(** [isRushHour] of [generateInsights]. *)
Definition isRushHour (currentHour : Z) : bool :=
  ((7 <=? currentHour)%Z && (currentHour <=? 9)%Z
   || (17 <=? currentHour)%Z && (currentHour <=? 19)%Z)%bool.

(** The text under "Current Conditions", by the hour of the clock. *)
Definition currentConditions (hours : Z) : string :=
  if ((7 <=? hours)%Z && (hours <=? 9)%Z)%bool
  then "Morning rush hour - expect delays on highways"
  else if ((17 <=? hours)%Z && (hours <=? 19)%Z)%bool
  then "Evening rush hour - heavy traffic expected"
  else "Normal traffic conditions".

End TrafficAnalytics.

(* ================================================================== *)
(** ** The route search behind [/api/routes/optimize] *)
(* ================================================================== *)

(** The server that answers [planRoute] is not part of the front-end
    sources.  Its route search is modelled here from sections 3, 4.2, 4.4,
    4.5 and 5 of the specification. *)

Module RouteSearch.
Import Js.

Definition NodeID := nat.
Definition EdgeID := nat.

(** Modelled from the spec: the Edge of the data model (section 3), absent
    from the sources: identifier, directed endpoints, free-flow traversal
    cost and length (the geometry is opaque to routing and left out). *)
Record Edge : Type := mkEdge {
  edge_id : EdgeID;
  source : NodeID;
  destination : NodeID;
  freeFlowCost : Q;
  distance : Q
}.

(** Modelled from the spec: the static topology of the Road Network Graph,
    absent from the sources, as its edge set. *)
Definition Graph := list Edge.

(** Modelled from the spec: [Neighbors(NodeID)] of section 4.1, absent from
    the sources: the outgoing edges of a node, in the order of the network. *)
Definition Neighbors (g : Graph) (u : NodeID) : list Edge :=
  filter (fun e => Nat.eqb (source e) u) g.

(** Modelled from the spec: a Weight Snapshot (section 3), absent from the
    sources: the weight of every edge at one instant. *)
Definition WeightSnapshot := EdgeID -> Q.

(** Modelled from the spec: [clamp(x, lo, hi)] of section 4.2, absent from
    the sources, written as the sources write their own clamp. *)
Definition clamp (x lo hi : Q) : Q := Math_max lo (Math_min hi x).

(** Modelled from the spec: the effective edge cost of section 4.2, absent
    from the sources: [freeFlowCost * clamp(weight, 1.0, maxCongestionMultiplier)]. *)
Definition effectiveCost (maxCongestionMultiplier : Q) (w : WeightSnapshot)
    (e : Edge) : Q :=
  freeFlowCost e * clamp (w (edge_id e)) 1 maxCongestionMultiplier.

(** Modelled from the spec: a weight update of the Live Weight Store
    (section 4.2), absent from the sources: the entry of one edge is
    replaced as a whole by its new weight, every other entry stays. *)
Definition updateWeight (w : WeightSnapshot) (edge : EdgeID) (newWeight : Q)
    : WeightSnapshot :=
  fun i => if Nat.eqb i edge then newWeight else w i.

(** Modelled from the spec: an entry of the priority queue of the search of
    section 4.4, absent from the sources: a path found so far, with its
    total cost, number of edges and total distance. *)
Record Entry : Type := mkEntry {
  e_cost : Q;
  e_hops : nat;
  e_dist : Q;
  e_node : NodeID;
  e_path : list Edge
}.

(** Modelled from the spec: the tie-break policy of section 4.4, absent from
    the sources: lower cost first; at equal cost fewer edges; then lower
    distance. *)
Definition entry_leb (a b : Entry) : bool :=
  if Qlt_le_dec (e_cost a) (e_cost b) then true
  else if Qlt_le_dec (e_cost b) (e_cost a) then false
  else if (e_hops a <? e_hops b)%nat then true
  else if (e_hops b <? e_hops a)%nat then false
  else Qle_bool (e_dist a) (e_dist b).

(** Modelled from the spec: the priority queue of section 4.4, absent from
    the sources: the least entry and the remaining queue. *)
Fixpoint extractMin (q : list Entry) : option (Entry * list Entry) :=
  match q with
  | [] => None
  | x :: t =>
      match extractMin t with
      | None => Some (x, [])
      | Some (m, rest) =>
          if entry_leb x m then Some (x, t) else Some (m, x :: rest)
      end
  end.

(** Modelled from the spec: the outcomes of the Route Search Engine
    (sections 4.4 and 5), absent from the sources. *)
Inductive SearchResult : Type :=
| Found (r : Entry)
| NoRoute
| BudgetExhausted.

(** Modelled from the spec: the set of settled nodes of the search of
    section 4.4, absent from the sources, as a list with a membership test. *)
Definition visitedb (visited : list NodeID) (u : NodeID) : bool :=
  existsb (Nat.eqb u) visited.

(** Modelled from the spec: the relaxation step of the search of section
    4.4, absent from the sources: the path of [m] prolonged by the edge [e]. *)
Definition extend (cost : Edge -> Q) (m : Entry) (e : Edge) : Entry :=
  {| e_cost := e_cost m + cost e;
     e_hops := S (e_hops m);
     e_dist := e_dist m + distance e;
     e_node := destination e;
     e_path := e_path m ++ [e] |}.

(** Modelled from the spec: the priority-queue shortest-path search
    (Dijkstra) of section 4.4 with the budget of section 5, absent from the
    sources.  Each step takes the least entry off the queue; a node taken
    for the first time is settled and its neighbours are queued; the search
    ends when the target is taken ([Found]), when the queue is empty
    ([NoRoute]) or when [budget] steps are used up ([BudgetExhausted]). *)
Fixpoint search (g : Graph) (cost : Edge -> Q) (target : NodeID)
    (budget : nat) (visited : list NodeID) (frontier : list Entry)
    : SearchResult :=
  match budget with
  | O => BudgetExhausted
  | S budget' =>
      match extractMin frontier with
      | None => NoRoute
      | Some (m, rest) =>
          if visitedb visited (e_node m) then
            search g cost target budget' visited rest
          else if Nat.eqb (e_node m) target then Found m
          else
            search g cost target budget' (e_node m :: visited)
              (rest ++ map (extend cost m) (Neighbors g (e_node m)))
      end
  end.

(** Modelled from the spec: the first queue entry of the search of section
    4.4, absent from the sources: the empty path at the origin node. *)
Definition start (s : NodeID) : Entry :=
  {| e_cost := 0; e_hops := O; e_dist := 0; e_node := s; e_path := [] |}.

(** Modelled from the spec: the Route Search Engine of section 4.4, absent
    from the sources, started at the node [s]. *)
Definition bestRoute (g : Graph) (cost : Edge -> Q) (s t : NodeID)
    (budget : nat) : SearchResult :=
  search g cost t budget [] [start s].

(** Modelled from the spec: the Route of section 3, absent from the
    sources: the edges in order, total cost, total distance and the weight
    of each edge at snapshot time. *)
Record Route : Type := mkRoute {
  route_edges : list Edge;
  total_cost : Q;
  total_distance : Q;
  congestion : list Q
}.

(** Modelled from the spec: the query-time failures of section 7, absent
    from the sources. *)
Inductive PlanError : Type :=
| UnresolvableLocation
| NoRouteFound
| RouteSearchTimeout.

(** Modelled from the spec: the option [optimize_for] of section 4.5,
    absent from the sources.  (For [avoid_major_roads] and [alternatives]
    the specification gives no cost formula; they are not modelled.) *)
Inductive OptimizeFor : Type := ByTime | ByDistance.

(** Modelled from the spec: the cost function an option selects (section
    4.5), absent from the sources: the effective cost for time, the length
    for distance. *)
Definition costFor (opt : OptimizeFor) (maxCongestionMultiplier : Q)
    (w : WeightSnapshot) : Edge -> Q :=
  match opt with
  | ByTime => effectiveCost maxCongestionMultiplier w
  | ByDistance => distance
  end.

(** Modelled from the spec: [PlanRoute] of section 4.5, absent from the
    sources.  [nearestNode] is [NearestNode] of section 4.1 with the maximum
    snap distance applied ([None] when the point is outside coverage); the
    snapshot [w] is acquired by the caller; the result is a route or a
    typed failure, never an exception. *)
Definition PlanRoute {Coord : Type} (nearestNode : Coord -> option NodeID)
    (g : Graph) (maxCongestionMultiplier : Q) (w : WeightSnapshot)
    (originCoord destCoord : Coord) (opt : OptimizeFor) (budget : nat)
    : Route + PlanError :=
  match nearestNode originCoord, nearestNode destCoord with
  | Some s, Some t =>
      match bestRoute g (costFor opt maxCongestionMultiplier w) s t budget with
      | Found r =>
          inl {| route_edges := e_path r;
                 total_cost := e_cost r;
                 total_distance := e_dist r;
                 congestion := map (fun e => w (edge_id e)) (e_path r) |}
      | NoRoute => inr NoRouteFound
      | BudgetExhausted => inr RouteSearchTimeout
      end
  | _, _ => inr UnresolvableLocation
  end.




(** Paths of the network: [walk s p] is the node where the edge sequence
    [p] ends when followed from [s]. *)
Fixpoint walk (s : NodeID) (p : list Edge) : option NodeID :=
  match p with
  | [] => Some s
  | e :: p' => if Nat.eqb (source e) s then walk (destination e) p' else None
  end.

Definition is_path (g : Graph) (s : NodeID) (p : list Edge) (t : NodeID) : Prop :=
  Forall (fun e => In e g) p /\ walk s p = Some t.

Fixpoint path_cost (cost : Edge -> Q) (p : list Edge) : Q :=
  match p with
  | [] => 0
  | e :: p' => cost e + path_cost cost p'
  end.

(** A budget that no search over [g] exhausts. *)
Definition enough (g : Graph) : nat := S (S (List.length g)).

(** What remains to be done in a search: the queued entries, and the edges
    whose source is not settled yet. *)
Definition pending (g : Graph) (visited : list NodeID) (frontier : list Entry) : nat :=
  (List.length frontier
   + List.length (filter (fun e => negb (visitedb visited (source e))) g))%nat.

(** A queue entry describes a path of the network from [s]. *)
Definition entry_ok (g : Graph) (cost : Edge -> Q) (s : NodeID) (m : Entry) : Prop :=
  is_path g s (e_path m) (e_node m) /\
  e_cost m == path_cost cost (e_path m) /\
  e_dist m == path_cost distance (e_path m) /\
  e_hops m = List.length (e_path m).

(** The invariant of the search; [d] is the cost at which each settled node
    was taken off the queue. *)
Record SearchInv (g : Graph) (cost : Edge -> Q) (s : NodeID) (d : NodeID -> Q)
    (visited : list NodeID) (frontier : list Entry) : Prop := mkSearchInv {
  inv_entries : forall m, In m frontier -> entry_ok g cost s m;
  inv_settled : forall x p, In x visited -> is_path g s p x -> d x <= path_cost cost p;
  inv_relaxed : forall x e,
      In x visited -> In e g -> source e = x -> ~ In (destination e) visited ->
      exists m, In m frontier /\ e_node m = destination e /\ e_cost m <= d x + cost e;
  inv_start : In s visited \/ exists m, In m frontier /\ e_node m = s /\ e_cost m <= 0
}.

(** The part of a snapshot that decides the cost of the edges of [g]. *)
Definition increased (w w' : WeightSnapshot) (e0 : EdgeID) : Prop :=
  w e0 <= w' e0 /\ forall i, i <> e0 -> w' i = w i.

(** Two snapshots carry the same weight for every edge of [g]. *)
Definition agree (g : Graph) (w w' : WeightSnapshot) : Prop :=
  forall e, In e g -> w' (edge_id e) = w (edge_id e).

(** A network with three nodes: the direct edge 0 -> 1 and the way round
    over node 2; node 3 has no edge. *)
Definition triangle : Graph :=
  [ mkEdge 0%nat 0%nat 1%nat 10 900;
    mkEdge 1%nat 0%nat 2%nat 4 500;
    mkEdge 2%nat 2%nat 1%nat 4 500 ].

Definition freeFlow : WeightSnapshot := fun _ => 1.

(** The snapshot after edge 1 has become three times as slow. *)
Definition congested : WeightSnapshot := fun i => if Nat.eqb i 1%nat then 3 else 1.

(** The snapshot after the direct edge 0 has become three times as slow. *)
Definition directJam : WeightSnapshot := fun i => if Nat.eqb i 0%nat then 3 else 1.

(** The free-flow snapshot with an entry for an edge the triangle lacks. *)
Definition freeFlowAndMore : WeightSnapshot := fun i => if Nat.eqb i 7%nat then 4 else 1.

(** A snapshot in which every edge is faster than free flow. *)
Definition swift : WeightSnapshot := fun _ => 1 # 2.

(** Nearest nodes of a one-dimensional map: the point [k] lies on node [k],
    points from 4 on are outside coverage. *)
Definition onNode (c : nat) : option NodeID :=
  if Nat.ltb c 4%nat then Some c else None.

End RouteSearch.

(* ================================================================== *)
(** ** Sample data *)
(* ================================================================== *)

Module Samples.
Import TrafficDataContext.

(** A traffic point of a segment, at the position of Long Street. *)
Definition reading (id : string) (speed level : Q) (time : string) : TrafficData :=
  {| road_segment_id := id;
     latitude := - (339249 # 10000);
     longitude := 184241 # 10000;
     flow_speed := speed;
     congestion_level := level;
     timestamp := time |}.

Definition calm := reading "CT_001" 40 (2 # 10) "2024-01-01T08:00:00.000Z".
Definition busy := reading "CT_001" 10 (8 # 10) "2024-01-01T08:01:00.000Z".
Definition jammed := reading "CT_001" 20 (1 # 2) "2024-01-01T08:00:00.000Z".
Definition elsewhere := reading "CT_002" 60 (1 # 10) "2024-01-01T09:00:00.000Z".
Definition elsewhere_later := reading "CT_002" 55 (2 # 10) "2024-01-01T12:00:00.000Z".
Definition impossible := reading "CT_003" (- 5) (5 # 10) "1970-01-01T00:00:00.000Z".

(** Two of the fallback destinations of the route planner. *)
Definition airport : RoutePlanner.Destination :=
  RoutePlanner.mkDestination "Cape Town International Airport"
    (- (339685 # 10000)) (186017 # 10000) "transport".
Definition waterfront : RoutePlanner.Destination :=
  RoutePlanner.mkDestination "V&A Waterfront"
    (- (339017 # 10000)) (184211 # 10000) "shopping".

(** The planner with both ends chosen and nothing planned yet. *)
Definition ready : RoutePlanner.PlannerState :=
  RoutePlanner.mkPlannerState (Some airport) (Some waterfront) None false None.

(** An environment of the mock data: every draw is one half, the clock
    shows eight in the morning. *)
Definition steady : TrafficMap.Env :=
  TrafficMap.mkEnv (fun _ => 1 # 2) (fun _ => 8%Z)
    (fun _ => "2024-01-01T08:00:00.000Z").

(** A popular route that carries both of its locations. *)
Definition airportRun : RoutePlanner.RouteResult :=
  {| RoutePlanner.route_id := "popular_1";
     RoutePlanner.route_name := Some "Airport to Waterfront";
     RoutePlanner.total_distance := 22400;
     RoutePlanner.estimated_time := 1680;
     RoutePlanner.normal_time := Some 1320;
     RoutePlanner.traffic_delay := Some 360;
     RoutePlanner.geometry := RoutePlanner.mkGeometry "LineString" [];
     RoutePlanner.start_location :=
       Some (RoutePlanner.mkLocation "Cape Town International Airport"
               (- (339685 # 10000)) (186017 # 10000));
     RoutePlanner.end_location :=
       Some (RoutePlanner.mkLocation "V&A Waterfront"
               (- (339017 # 10000)) (184211 # 10000));
     RoutePlanner.traffic_conditions := Some (RoutePlanner.ConditionString "moderate") |}.


(** The planner as it is first shown: nothing chosen, nothing planned. *)
Definition blank : RoutePlanner.PlannerState :=
  RoutePlanner.mkPlannerState None None None false None.

(** A server that answers no request with an [ok] response. *)
Definition refusing (endpoint : string) (body : RoutePlanner.RouteRequest)
    : RoutePlanner.FetchOutcome :=
  RoutePlanner.NotOk.

End Samples.

(* ================================================================== *)
(** * Properties *)
(* ================================================================== *)

(** ** Arrays *)

Section ArrayFacts.
Import Js.
Context {A : Type}.
Implicit Types (f : A -> bool) (l : list A).

Lemma findIndex_bounds f l :
  (-1 <= findIndex f l < Z.of_nat (List.length l))%Z.
Proof.
  induction l as [|x t IH]; simpl; [lia|].
  destruct (f x); [lia|].
  destruct (Z.ltb_spec (findIndex f t) 0); lia.
Qed.

Lemma findIndex_absent f l :
  (findIndex f l < 0)%Z <-> forall x, In x l -> f x = false.
Proof.
  induction l as [|x t IH]; simpl.
  - split; [intros _ y []|lia].
  - destruct (f x) eqn:Hx.
    + split; [lia|]. intros H. specialize (H x (or_introl eq_refl)). congruence.
    + destruct (Z.ltb_spec (findIndex f t) 0) as [Hlt|Hge].
      * split; [|lia]. intros _ y [<-|Hy]; [exact Hx|]. now apply IH.
      * split; [lia|]. intros H. exfalso.
        assert (findIndex f t < 0)%Z; [|lia].
        apply IH. intros y Hy. apply H. now right.
Qed.

Lemma array_set_length l i (v : A) :
  List.length (array_set l i v) = List.length l.
Proof.
  revert i; induction l as [|x t IH]; intros [|i]; simpl; auto.
Qed.

Lemma array_set_same l i (v : A) :
  (i < List.length l)%nat -> nth_error (array_set l i v) i = Some v.
Proof.
  revert i; induction l as [|x t IH]; intros [|i]; simpl; try lia; auto.
  intros H. apply IH. lia.
Qed.

Lemma array_set_other l i j (v : A) :
  i <> j -> nth_error (array_set l i v) j = nth_error l j.
Proof.
  revert i j; induction l as [|x t IH]; intros [|i] [|j]; simpl; auto; try congruence.
Qed.

End ArrayFacts.

(** ** The traffic-data store *)

Section TrafficStore.
Import Js TrafficDataContext.

Lemma updateTrafficPoint_nil point : updateTrafficPoint point [] = [point].
Proof. reflexivity. Qed.

(** [updateTrafficPoint] walks the store up to the first entry of the
    point's segment. *)
Lemma updateTrafficPoint_cons point x t :
  updateTrafficPoint point (x :: t) =
  if String.eqb (road_segment_id x) (road_segment_id point)
  then point :: t
  else x :: updateTrafficPoint point t.
Proof.
  unfold updateTrafficPoint. simpl findIndex.
  destruct (String.eqb (road_segment_id x) (road_segment_id point)); [reflexivity|].
  set (r := findIndex _ t).
  pose proof (findIndex_bounds
    (fun p => String.eqb (road_segment_id p) (road_segment_id point)) t) as Hb.
  fold r in Hb.
  destruct (Z.ltb_spec r 0) as [Hlt|Hge].
  - rewrite (Z.geb_leb r 0), (proj2 (Z.leb_gt 0 r)) by lia.
    reflexivity.
  - rewrite (Z.geb_leb (r + 1) 0), (proj2 (Z.leb_le 0 (r + 1))) by lia.
    rewrite (Z.geb_leb r 0), (proj2 (Z.leb_le 0 r)) by lia.
    replace (Z.to_nat (r + 1)) with (S (Z.to_nat r)) by lia.
    reflexivity.
Qed.

Lemma updateTrafficPoint_absent point prev :
  (forall old, In old prev -> road_segment_id old <> road_segment_id point) ->
  updateTrafficPoint point prev = (prev ++ [point])%list.
Proof.
  induction prev as [|x t IH]; intros H; [reflexivity|].
  rewrite updateTrafficPoint_cons.
  destruct (String.eqb_spec (road_segment_id x) (road_segment_id point)) as [E|_].
  - exfalso. exact (H x (or_introl eq_refl) E).
  - simpl. f_equal. apply IH. intros old Hold. apply H. now right.
Qed.

Lemma updateTrafficPoint_length_ge point prev :
  (List.length prev <= List.length (updateTrafficPoint point prev))%nat.
Proof.
  induction prev as [|x t IH]; [simpl; lia|].
  rewrite updateTrafficPoint_cons.
  destruct (String.eqb _ _); simpl; lia.
Qed.

Lemma updateTrafficPoint_ids point prev :
  forall id, In id (map road_segment_id (updateTrafficPoint point prev)) <->
             id = road_segment_id point \/ In id (map road_segment_id prev).
Proof.
  induction prev as [|x t IH]; intros id.
  - simpl. intuition.
  - rewrite updateTrafficPoint_cons.
    destruct (String.eqb_spec (road_segment_id x) (road_segment_id point)) as [E|N];
      simpl.
    + rewrite E. intuition.
    + rewrite IH. intuition.
Qed.

Lemma updateTrafficPoint_NoDup point prev :
  NoDup (map road_segment_id prev) ->
  NoDup (map road_segment_id (updateTrafficPoint point prev)).
Proof.
  induction prev as [|x t IH]; intros H.
  - simpl. constructor; [intros []|constructor].
  - rewrite updateTrafficPoint_cons. simpl in H. inversion H as [|? ? Hx Ht]; subst.
    destruct (String.eqb_spec (road_segment_id x) (road_segment_id point)) as [E|N];
      simpl.
    + rewrite <- E. now constructor.
    + constructor; [|now apply IH].
      rewrite updateTrafficPoint_ids. intros [E|Hin]; [congruence|contradiction].
Qed.

Lemma updateTrafficPoint_in_place point prev :
  NoDup (map road_segment_id prev) ->
  forall i old,
    nth_error prev i = Some old ->
    road_segment_id old = road_segment_id point ->
    List.length (updateTrafficPoint point prev) = List.length prev /\
    nth_error (updateTrafficPoint point prev) i = Some point /\
    forall j, j <> i ->
      nth_error (updateTrafficPoint point prev) j = nth_error prev j.
Proof.
  induction prev as [|x t IH]; intros Hnd i old Hi Hid.
  - destruct i; discriminate.
  - rewrite updateTrafficPoint_cons. simpl in Hnd.
    inversion Hnd as [|? ? Hx Ht]; subst.
    destruct (String.eqb_spec (road_segment_id x) (road_segment_id point)) as [E|N].
    + destruct i as [|i]; simpl in *.
      * repeat split; auto. intros [|j] Hj; [congruence|reflexivity].
      * exfalso. apply Hx. rewrite E, <- Hid.
        apply in_map. eapply nth_error_In; eauto.
    + destruct i as [|i]; simpl in Hi.
      * inversion Hi; subst. congruence.
      * destruct (IH Ht i old Hi Hid) as (Hlen & Hsame & Hother).
        simpl. repeat split; auto.
        intros [|j] Hj; simpl; [reflexivity|]. apply Hother. congruence.
Qed.

Lemma entryOf_updateTrafficPoint point prev :
  entryOf (road_segment_id point) (updateTrafficPoint point prev) = Some point.
Proof.
  unfold entryOf.
  induction prev as [|x t IH].
  - simpl. now rewrite String.eqb_refl.
  - rewrite updateTrafficPoint_cons.
    destruct (String.eqb (road_segment_id x) (road_segment_id point)) eqn:E; simpl.
    + now rewrite String.eqb_refl.
    + now rewrite E.
Qed.

Lemma entryOf_updateTrafficPoint_other point prev id :
  road_segment_id point <> id ->
  entryOf id (updateTrafficPoint point prev) = entryOf id prev.
Proof.
  intros Hne. unfold entryOf.
  induction prev as [|x t IH].
  - simpl. destruct (String.eqb_spec (road_segment_id point) id); [contradiction|reflexivity].
  - rewrite updateTrafficPoint_cons.
    destruct (String.eqb_spec (road_segment_id x) (road_segment_id point)) as [E|N]; simpl.
    + rewrite E.
      destruct (String.eqb_spec (road_segment_id point) id); [contradiction|reflexivity].
    + now rewrite IH.
Qed.

Lemma In_updateTrafficPoint point prev : In point (updateTrafficPoint point prev).
Proof.
  pose proof (entryOf_updateTrafficPoint point prev) as H.
  unfold entryOf in H. apply find_some in H. tauto.
Qed.

End TrafficStore.

Section TrafficStoreClaims.
Import Js TrafficDataContext Samples.

(** C9.  When the entries of the store have pairwise distinct
    [road_segment_id]s, so have the entries after [updateTrafficPoint]: an
    entry of the point's segment is replaced in place, every other entry
    keeping its value and position; when there is none the point is
    appended at the end. *)
Theorem updateTrafficPoint_distinct_segments (prev : list TrafficData)
    (point : TrafficData) :
  NoDup (map road_segment_id prev) ->
  let next := updateTrafficPoint point prev in
  NoDup (map road_segment_id next) /\
  (forall i old,
      nth_error prev i = Some old ->
      road_segment_id old = road_segment_id point ->
      List.length next = List.length prev /\
      nth_error next i = Some point /\
      forall j, j <> i -> nth_error next j = nth_error prev j) /\
  ((forall old, In old prev -> road_segment_id old <> road_segment_id point) ->
   next = (prev ++ [point])%list).
Proof.
  intros Hnd next. subst next. split; [|split].
  - now apply updateTrafficPoint_NoDup.
  - now apply updateTrafficPoint_in_place.
  - apply updateTrafficPoint_absent.
Qed.

Lemma updateTrafficPoint_distinct_segments_witness :
  NoDup (map road_segment_id [elsewhere; calm]) /\
  NoDup (map road_segment_id (updateTrafficPoint busy [elsewhere; calm])) /\
  nth_error (updateTrafficPoint busy [elsewhere; calm]) 1 = Some busy /\
  nth_error (updateTrafficPoint busy [elsewhere; calm]) 0 = Some elsewhere.
Proof.
  assert (Hnd : NoDup (map road_segment_id [elsewhere; calm])).
  { simpl. constructor; [intros [H|[]]; discriminate H|].
    constructor; [intros []|constructor]. }
  split; [exact Hnd|].
  destruct (updateTrafficPoint_distinct_segments [elsewhere; calm] busy Hnd)
    as (Hnext & Hplace & _).
  split; [exact Hnext|].
  destruct (Hplace 1%nat calm eq_refl eq_refl) as (_ & Hsame & Hother).
  split; [exact Hsame|].
  rewrite (Hother 0%nat); [reflexivity|discriminate].
Defined.

(** C1 (as amended).  [updateTrafficPoint] makes the incoming point the
    entry of its segment, whatever the entry held before: the new congestion
    level is the observed one.  For no time gap and no half-life is it the
    exponential moving average of the old and the observed level, unless the
    two are equal. *)
Theorem updateTrafficPoint_replaces_entry (prev : list TrafficData)
    (point : TrafficData) :
  entryOf (road_segment_id point) (updateTrafficPoint point prev) = Some point /\
  forall (oldWeight : Q) (dt halfLife : R),
    (Q2R (congestion_level point) =
       exp (- dt / halfLife) * Q2R oldWeight
       + (1 - exp (- dt / halfLife)) * Q2R (congestion_level point))%R
    <-> Q2R oldWeight = Q2R (congestion_level point).
Proof.
  split; [apply entryOf_updateTrafficPoint|].
  intros oldWeight dt halfLife.
  pose proof (exp_pos (- dt / halfLife)) as Hpos.
  set (d := exp (- dt / halfLife)) in *.
  split; intros H.
  - assert (Hz : (d * (Q2R oldWeight - Q2R (congestion_level point)) = 0)%R) by lra.
    apply Rmult_integral in Hz. destruct Hz; lra.
  - rewrite H. lra.
Qed.

(** C1, counterexample.  An entry at level 0.2 receives, 60 seconds later,
    a sample at level 0.8; with a half-life of 300 seconds the moving
    average lies strictly between the two, the store holds 0.8. *)
Lemma updateTrafficPoint_not_moving_average :
  option_map congestion_level
    (entryOf "CT_001" (updateTrafficPoint busy [calm])) = Some (8 # 10) /\
  Q2R (8 # 10) <>
    (exp (- 60 / 300) * Q2R (congestion_level calm)
     + (1 - exp (- 60 / 300)) * Q2R (congestion_level busy))%R.
Proof.
  split; [reflexivity|].
  pose proof (exp_pos (- 60 / 300)) as Hpos.
  set (d := exp (- 60 / 300)) in *.
  unfold Q2R; simpl. intros H. lra.
Qed.

(** C6 (as amended).  The entry of a segment is the same after any run of
    store operations that carry nothing for that segment, however late: the
    store ages no entry. *)
Theorem untouched_entry_unchanged (st : list TrafficData) (acts : list Action)
    (id : string) :
  Forall (fun a => ~ touches id a) acts ->
  entryOf id (run st acts) = entryOf id st.
Proof.
  intros H. revert st. unfold run.
  induction H as [|a acts Ha _ IH]; intros st; [reflexivity|].
  simpl. rewrite IH.
  destruct a as [data|point]; simpl in *.
  - exfalso. now apply Ha.
  - now apply entryOf_updateTrafficPoint_other.
Qed.

Lemma untouched_entry_unchanged_witness :
  Forall (fun a => ~ touches "CT_001" a)
    [UpdateTrafficPoint elsewhere; UpdateTrafficPoint elsewhere_later] /\
  entryOf "CT_001"
    (run [jammed] [UpdateTrafficPoint elsewhere; UpdateTrafficPoint elsewhere_later])
  = entryOf "CT_001" [jammed].
Proof.
  assert (H : Forall (fun a => ~ touches "CT_001" a)
            [UpdateTrafficPoint elsewhere; UpdateTrafficPoint elsewhere_later]).
  { repeat constructor; simpl; discriminate. }
  split; [exact H|].
  exact (untouched_entry_unchanged [jammed] _ "CT_001" H).
Defined.

(** C6, counterexample.  A segment stored at the level 0.5 at 08:00
    receives no sample while another segment is updated at 09:00 and at
    12:00; read after that its level is still 0.5: not within any epsilon
    below 0.5 of 1.0, be the level itself or one plus the level read as the
    weight. *)
Lemma stale_entry_stays_congested :
  option_map congestion_level
    (entryOf "CT_001"
       (run [jammed] [UpdateTrafficPoint elsewhere; UpdateTrafficPoint elsewhere_later]))
  = Some (1 # 2) /\
  forall eps : Q, eps < 1 # 2 ->
    ~ Qabs ((1 # 2) - 1) <= eps /\ ~ Qabs (1 + (1 # 2) - 1) <= eps.
Proof.
  split; [reflexivity|].
  intros eps Heps.
  assert (E1 : Qabs ((1 # 2) - 1) == 1 # 2) by reflexivity.
  assert (E2 : Qabs (1 + (1 # 2) - 1) == 1 # 2) by reflexivity.
  rewrite E1, E2. split; intros H; lra.
Qed.

(** C8 (as amended).  [updateTrafficPoint] validates nothing: whatever its
    timestamp and speed, the incoming point is in the store afterwards, as
    the entry of its segment, and no entry is lost. *)
Theorem updateTrafficPoint_stores_every_point (prev : list TrafficData)
    (point : TrafficData) :
  In point (updateTrafficPoint point prev) /\
  entryOf (road_segment_id point) (step prev (UpdateTrafficPoint point)) = Some point /\
  (List.length prev <= List.length (updateTrafficPoint point prev))%nat.
Proof.
  split; [apply In_updateTrafficPoint|].
  split; [apply entryOf_updateTrafficPoint|apply updateTrafficPoint_length_ge].
Qed.

(** C8, counterexample.  A reading with the speed -5 and a timestamp of
    1970 is stored: the store is not left unchanged. *)
Lemma impossible_reading_is_stored :
  flow_speed impossible < 0 /\
  updateTrafficPoint impossible [calm] = [calm; impossible] /\
  updateTrafficPoint impossible [calm] <> [calm].
Proof.
  split; [reflexivity|].
  split; [reflexivity|].
  discriminate.
Qed.

(** X1.  Folding the same point twice is folding it once: a duplicate delivery
    leaves the store as the first delivery made it. *)
Theorem updateTrafficPoint_idempotent (prev : list TrafficData)
    (point : TrafficData) :
  updateTrafficPoint point (updateTrafficPoint point prev)
  = updateTrafficPoint point prev.
Proof.
  induction prev as [|x t IH].
  - rewrite updateTrafficPoint_nil, updateTrafficPoint_cons.
    now rewrite String.eqb_refl.
  - rewrite updateTrafficPoint_cons.
    destruct (String.eqb (road_segment_id x) (road_segment_id point)) eqn:E.
    + rewrite updateTrafficPoint_cons. now rewrite String.eqb_refl.
    + rewrite updateTrafficPoint_cons, E. now rewrite IH.
Qed.

End TrafficStoreClaims.

(** ** Colours and labels of traffic conditions *)

Section TrafficLabels.
Import Js.




Lemma Math_max_spec (a b : Q) : a <= Math_max a b /\ b <= Math_max a b /\
  (Math_max a b = a \/ Math_max a b = b).
Proof.
  unfold Math_max. destruct (Qlt_le_dec a b); repeat split; auto; lra.
Qed.

Lemma Math_min_spec (a b : Q) : Math_min a b <= a /\ Math_min a b <= b /\
  (Math_min a b = a \/ Math_min a b = b).
Proof.
  unfold Math_min. destruct (Qlt_le_dec b a); repeat split; auto; lra.
Qed.

End TrafficLabels.

(** ** The route planner *)

Section RoutePlannerFacts.
Import Js RoutePlanner.

Lemma Math_round_nearest (x : Q) :
  inject_Z (Math_round x) - (1 # 2) <= x /\ x < inject_Z (Math_round x) + (1 # 2).
Proof.
  unfold Math_round.
  pose proof (Qfloor_le (x + (1 # 2))) as Hle.
  pose proof (Qlt_floor (x + (1 # 2))) as Hlt.
  rewrite inject_Z_plus in Hlt. change (inject_Z 1) with 1 in Hlt.
  split; lra.
Qed.

Lemma Math_round_nonneg (x : Q) : 0 <= x -> (0 <= Math_round x)%Z.
Proof.
  intros Hx. unfold Math_round.
  change 0%Z with (Qfloor 0). apply Qfloor_resp_le. lra.
Qed.

Lemma Math_floor_quotient (m : Z) (d : positive) :
  Math_floor (inject_Z m / inject_Z (Zpos d)) = (m / Zpos d)%Z.
Proof.
  unfold Math_floor.
  assert (E : inject_Z m / inject_Z (Zpos d) == m # d).
  { unfold Qeq, Qdiv, Qmult, Qinv, inject_Z. simpl. lia. }
  rewrite (Qfloor_comp _ _ E). reflexivity.
Qed.

(** C10.  For a non-negative number of seconds, with [m] the number of
    minutes rounded to the nearest integer, [formatTime] returns
    [m min] when [m < 60], and otherwise [h]h [r]m with [h] the integer
    quotient and [r] the remainder of [m] by 60, so that [r] is below 60.
    The number of seconds is taken up to 2^53, the range in which the
    quotient by 60 computed in double precision rounds to the same integer
    as the exact one (from 60 * 2^49 seconds on it need not). *)
Theorem formatTime_spec (seconds : Q) :
  0 <= seconds -> seconds <= inject_Z (2 ^ 53) ->
  let m := Math_round (seconds / 60) in
  (inject_Z m - (1 # 2) <= seconds / 60 /\ seconds / 60 < inject_Z m + (1 # 2)) /\
  (0 <= m)%Z /\
  ((m < 60)%Z -> formatTime seconds = toString m ++ " min") /\
  ((60 <= m)%Z ->
   formatTime seconds
   = toString (m / 60) ++ "h " ++ toString (m mod 60) ++ "m" /\
   (1 <= m / 60)%Z /\ (0 <= m mod 60 < 60)%Z).
Proof.
  intros Hs _ m.
  assert (Hm : (0 <= m)%Z).
  { apply Math_round_nonneg. apply Qle_shift_div_l; lra. }
  split; [apply Math_round_nearest|].
  split; [exact Hm|].
  unfold formatTime. fold m.
  split; intros H.
  - now rewrite (proj2 (Z.ltb_lt m 60) H).
  - rewrite (proj2 (Z.ltb_ge m 60) H).
    change 60 with (inject_Z (Zpos 60)).
    rewrite Math_floor_quotient, Z.rem_mod_nonneg by lia.
    split; [reflexivity|].
    split; [|apply Z.mod_pos_bound; lia].
    apply Z.div_le_lower_bound; lia.
Qed.

Lemma formatTime_spec_witness :
  0 <= 3725 /\ formatTime 3725 = "1h 2m" /\ formatTime 89 = "1 min".
Proof.
  assert (H1 : 0 <= 3725) by lra.
  assert (H2 : 0 <= 89) by lra.
  assert (B1 : 3725 <= inject_Z (2 ^ 53)) by (vm_compute; discriminate).
  assert (B2 : 89 <= inject_Z (2 ^ 53)) by (vm_compute; discriminate).
  split; [exact H1|]. split.
  - destruct (formatTime_spec 3725 H1 B1) as (_ & _ & _ & Hlong).
    destruct Hlong as (E & _); [vm_compute; discriminate|].
    rewrite E. reflexivity.
  - destruct (formatTime_spec 89 H2 B2) as (_ & _ & Hshort & _).
    rewrite Hshort; [reflexivity|]. vm_compute. reflexivity.
Defined.

Lemma tryEndpoints_none fetch body eps :
  (forall endpoint data, In endpoint eps -> fetch endpoint body <> Ok data) ->
  tryEndpoints fetch body eps = None.
Proof.
  induction eps as [|endpoint rest IH]; intros H; [reflexivity|].
  simpl. destruct (fetch endpoint body) eqn:E.
  - apply IH. intros ep data Hin. apply H. now right.
  - apply IH. intros ep data Hin. apply H. now right.
  - exfalso. exact (H endpoint data (or_introl eq_refl) E).
Qed.

Lemma tryEndpoints_takes_first fetch body before endpoint after data :
  fetch endpoint body = Ok data ->
  (forall e, In e before -> forall d, fetch e body <> Ok d) ->
  tryEndpoints fetch body (before ++ endpoint :: after) = Some data.
Proof.
  intros Hok. induction before as [|e rest IH]; intros Hbefore; simpl.
  - now rewrite Hok.
  - destruct (fetch e body) as [| |d] eqn:E.
    + apply IH. intros e' He'. apply Hbefore. now right.
    + apply IH. intros e' He'. apply Hbefore. now right.
    + exfalso. exact (Hbefore e (or_introl eq_refl) d E).
Qed.

(** X20.  What [planRoute] makes of the answers, whatever they are: with
    an end missing it asks to select both and touches nothing else; with
    both ends chosen, the body of the first endpoint in the list that
    answers [ok] becomes the route shown and the error is cleared; when no
    endpoint answers [ok], whatever made the requests fail, the one message
    on the unavailable service is reported and the route shown before
    stays.  In both cases loading ends and the two ends stay as chosen. *)
Theorem planRoute_outcome (fetch : string -> RouteRequest -> FetchOutcome)
    (st : PlannerState) :
  (origin st = None \/ destination st = None ->
   error (planRoute fetch st) = Some "Please select both origin and destination" /\
   routeResult (planRoute fetch st) = routeResult st /\
   loading (planRoute fetch st) = loading st) /\
  (forall o d,
      origin st = Some o -> destination st = Some d ->
      let body := {| origin_lat := lat o; origin_lng := lng o;
                     destination_lat := lat d; destination_lng := lng d;
                     optimize_for := "time"; avoid_tolls := false |} in
      (forall before endpoint after data,
          endpoints = (before ++ endpoint :: after)%list ->
          fetch endpoint body = Ok data ->
          (forall e, In e before -> forall d', fetch e body <> Ok d') ->
          routeResult (planRoute fetch st) = Some data /\
          error (planRoute fetch st) = None) /\
      ((forall endpoint data,
           In endpoint endpoints -> fetch endpoint body <> Ok data) ->
       error (planRoute fetch st)
       = Some "Route optimization service temporarily unavailable" /\
       routeResult (planRoute fetch st) = routeResult st) /\
      loading (planRoute fetch st) = false /\
      origin (planRoute fetch st) = Some o /\
      destination (planRoute fetch st) = Some d).
Proof.
  split.
  - unfold planRoute.
    intros [H|H]; rewrite H; [|destruct (origin st)]; cbn; auto.
  - intros o d Ho Hd body. unfold planRoute. rewrite Ho, Hd. fold body.
    split; [|split].
    + intros before endpoint after data Heps Hok Hbefore.
      rewrite Heps, (tryEndpoints_takes_first _ _ _ _ _ _ Hok Hbefore).
      cbn. auto.
    + intros Hfail. rewrite tryEndpoints_none by exact Hfail. cbn. auto.
    + destruct (tryEndpoints fetch body endpoints); cbn; auto.
Qed.

Lemma planRoute_outcome_witness :
  error (planRoute Samples.refusing Samples.ready)
  = Some "Route optimization service temporarily unavailable" /\
  routeResult (planRoute Samples.refusing Samples.ready) = None.
Proof.
  destruct (planRoute_outcome Samples.refusing Samples.ready) as (_ & H).
  destruct (H Samples.airport Samples.waterfront eq_refl eq_refl) as (_ & Hfail & _).
  apply Hfail. intros endpoint data _. discriminate.
Defined.

(** X2.  Planning again, the server answering as before, changes nothing: the
    planner reads no clock and draws no random number, its state after a
    run is a function of the two ends chosen and of the answers. *)
Theorem planRoute_idempotent (fetch : string -> RouteRequest -> FetchOutcome)
    (st : PlannerState) :
  planRoute fetch (planRoute fetch st) = planRoute fetch st.
Proof.
  unfold planRoute.
  destruct (origin st) as [o|] eqn:Ho, (destination st) as [d|] eqn:Hd;
    try (cbn; rewrite ?Ho, ?Hd; reflexivity).
  destruct (tryEndpoints _ _ _) as [data|] eqn:E;
    cbn [origin destination routeResult]; rewrite E; reflexivity.
Qed.

End RoutePlannerFacts.

(** ** The route search *)

Section QueueFacts.
Import Js RouteSearch.

Lemma entry_leb_true a b : entry_leb a b = true -> e_cost a <= e_cost b.
Proof.
  unfold entry_leb.
  destruct (Qlt_le_dec (e_cost a) (e_cost b)); [intros _; lra|].
  destruct (Qlt_le_dec (e_cost b) (e_cost a)); [discriminate|intros _; lra].
Qed.

Lemma entry_leb_false a b : entry_leb a b = false -> e_cost b <= e_cost a.
Proof.
  unfold entry_leb.
  destruct (Qlt_le_dec (e_cost a) (e_cost b)); [discriminate|intros _; lra].
Qed.

Lemma extractMin_none q : extractMin q = None -> q = [].
Proof.
  destruct q as [|x t]; [reflexivity|]. simpl.
  destruct (extractMin t) as [[m rest]|]; [|discriminate].
  destruct (entry_leb x m); discriminate.
Qed.

Lemma extractMin_perm q m rest :
  extractMin q = Some (m, rest) -> Permutation q (m :: rest).
Proof.
  revert m rest. induction q as [|x t IH]; intros m rest; [discriminate|].
  simpl. destruct (extractMin t) as [[m' rest']|] eqn:E.
  - destruct (entry_leb x m'); intros H; inversion H; subst.
    + reflexivity.
    + rewrite (IH _ _ eq_refl). apply perm_swap.
  - intros H; inversion H; subst.
    apply extractMin_none in E. subst. reflexivity.
Qed.

Lemma extractMin_least q m rest :
  extractMin q = Some (m, rest) -> forall y, In y q -> e_cost m <= e_cost y.
Proof.
  revert m rest. induction q as [|x t IH]; intros m rest; [discriminate|].
  simpl. destruct (extractMin t) as [[m' rest']|] eqn:E.
  - destruct (entry_leb x m') eqn:L; intros H; inversion H; subst.
    + apply entry_leb_true in L. intros y [<-|Hy]; [lra|].
      pose proof (IH _ _ eq_refl y Hy). lra.
    + apply entry_leb_false in L. intros y [<-|Hy]; [lra|].
      exact (IH _ _ eq_refl y Hy).
  - intros H; inversion H; subst.
    apply extractMin_none in E. subst. intros y [<-|[]]. lra.
Qed.

Lemma extractMin_in q m rest :
  extractMin q = Some (m, rest) ->
  forall y, In y q <-> y = m \/ In y rest.
Proof.
  intros H y. apply extractMin_perm in H. split; intros Hy.
  - apply (Permutation_in _ H) in Hy. destruct Hy; auto.
  - apply (Permutation_in _ (Permutation_sym H)). destruct Hy; [left|right]; auto.
Qed.

Lemma extractMin_length q m rest :
  extractMin q = Some (m, rest) -> List.length q = S (List.length rest).
Proof.
  intros H. apply extractMin_perm in H. now rewrite (Permutation_length H).
Qed.

Lemma visitedb_In visited u : visitedb visited u = true <-> In u visited.
Proof.
  unfold visitedb. rewrite existsb_exists. split.
  - intros (x & Hx & E). apply Nat.eqb_eq in E. now subst.
  - intros H. exists u. split; [exact H|apply Nat.eqb_refl].
Qed.

Lemma visitedb_not_In visited u : visitedb visited u = false <-> ~ In u visited.
Proof.
  rewrite <- visitedb_In. destruct (visitedb visited u); intuition congruence.
Qed.

Lemma Neighbors_In g u e : In e (Neighbors g u) <-> In e g /\ source e = u.
Proof.
  unfold Neighbors. rewrite filter_In, Nat.eqb_eq. tauto.
Qed.

Lemma walk_app s p q :
  walk s (p ++ q)
  = match walk s p with Some x => walk x q | None => None end.
Proof.
  revert s. induction p as [|e p IH]; intros s; simpl; [reflexivity|].
  destruct (Nat.eqb (source e) s); [apply IH|reflexivity].
Qed.

Lemma path_cost_app cost p q :
  path_cost cost (p ++ q) == path_cost cost p + path_cost cost q.
Proof.
  induction p as [|e p IH]; simpl; [lra|]. rewrite IH. lra.
Qed.

Lemma path_cost_nonneg g cost p :
  (forall e, In e g -> 0 <= cost e) ->
  Forall (fun e => In e g) p -> 0 <= path_cost cost p.
Proof.
  intros Hc H. induction H as [|e p He _ IH]; simpl; [lra|].
  pose proof (Hc e He). lra.
Qed.

Lemma path_cost_le g c c' p :
  (forall e, In e g -> c e <= c' e) ->
  Forall (fun e => In e g) p -> path_cost c p <= path_cost c' p.
Proof.
  intros Hc H. induction H as [|e p He _ IH]; simpl; [lra|].
  pose proof (Hc e He). lra.
Qed.

Lemma is_path_snoc g s p e x :
  is_path g s p x -> In e g -> source e = x ->
  is_path g s (p ++ [e]) (destination e).
Proof.
  intros [Hall Hw] He Hs. split.
  - apply Forall_app. split; [exact Hall|]. now constructor.
  - rewrite walk_app, Hw. simpl. now rewrite Hs, Nat.eqb_refl.
Qed.

Lemma is_path_snoc_inv g s p e v :
  is_path g s (p ++ [e]) v ->
  is_path g s p (source e) /\ In e g /\ destination e = v.
Proof.
  intros [Hall Hw]. apply Forall_app in Hall. destruct Hall as [Hp He].
  inversion He; subst. rewrite walk_app in Hw.
  destruct (walk s p) as [x|] eqn:E; [|discriminate].
  simpl in Hw. destruct (Nat.eqb_spec (source e) x) as [->|]; [|discriminate].
  inversion Hw; subst. repeat split; auto.
Qed.

End QueueFacts.

Section SearchFacts.
Import Js RouteSearch.

Variable g : Graph.
Variable cost : Edge -> Q.
Variable s t : NodeID.
Hypothesis cost_nonneg : forall e, In e g -> 0 <= cost e.

Lemma inv_init : SearchInv g cost s (fun _ => 0) [] [start s].
Proof.
  constructor.
  - intros m [<-|[]]. unfold entry_ok, is_path. simpl.
    repeat split; auto; reflexivity.
  - intros x p [].
  - intros x e [].
  - right. exists (start s). simpl. split; [now left|]. split; [reflexivity|lra].
Qed.

(** Every path to a node that is not settled passes through the queue:
    some entry is no more expensive than the path. *)
Lemma frontier_covers d visited frontier :
  SearchInv g cost s d visited frontier ->
  forall p v, is_path g s p v -> ~ In v visited ->
  exists m, In m frontier /\ e_cost m <= path_cost cost p.
Proof.
  intros I p. induction p as [|e p IH] using rev_ind; intros v Hp Hv.
  - destruct Hp as [_ Hw]. simpl in Hw. inversion Hw; subst.
    destruct (inv_start _ _ _ _ _ _ I) as [Hs|(m & Hm & _ & Hc)]; [contradiction|].
    exists m. simpl. auto.
  - pose proof Hp as [Hall _].
    apply is_path_snoc_inv in Hp. destruct Hp as (Hp & He & Hd).
    assert (Hnn : 0 <= path_cost cost p).
    { apply (path_cost_nonneg g); [exact cost_nonneg|]. apply Hp. }
    pose proof (cost_nonneg e He) as Hce.
    pose proof (path_cost_app cost p [e]) as Happ. simpl in Happ.
    destruct (visitedb visited (source e)) eqn:Hvis.
    + apply visitedb_In in Hvis.
      destruct (inv_relaxed _ _ _ _ _ _ I (source e) e Hvis He eq_refl)
        as (m & Hm & _ & Hc); [now rewrite Hd|].
      pose proof (inv_settled _ _ _ _ _ _ I _ _ Hvis Hp).
      exists m. split; [exact Hm|]. lra.
    + apply visitedb_not_In in Hvis.
      destruct (IH _ Hp Hvis) as (m & Hm & Hc).
      exists m. split; [exact Hm|]. lra.
Qed.

Lemma inv_skip d visited frontier m rest :
  SearchInv g cost s d visited frontier ->
  extractMin frontier = Some (m, rest) ->
  In (e_node m) visited ->
  SearchInv g cost s d visited rest.
Proof.
  intros I E Hm. pose proof (extractMin_in _ _ _ E) as Hin. constructor.
  - intros y Hy. apply (inv_entries _ _ _ _ _ _ I). apply Hin. now right.
  - apply (inv_settled _ _ _ _ _ _ I).
  - intros x e Hx He Hs Hd.
    destruct (inv_relaxed _ _ _ _ _ _ I x e Hx He Hs Hd) as (y & Hy & Hn & Hc).
    exists y. repeat split; auto.
    apply Hin in Hy. destruct Hy as [->|Hy]; [|exact Hy].
    rewrite Hn in Hm. contradiction.
  - destruct (inv_start _ _ _ _ _ _ I) as [Hs|(y & Hy & Hn & Hc)]; [now left|].
    apply Hin in Hy. destruct Hy as [->|Hy].
    + left. now rewrite <- Hn.
    + right. exists y. auto.
Qed.

Lemma inv_settle d visited frontier m rest :
  SearchInv g cost s d visited frontier ->
  extractMin frontier = Some (m, rest) ->
  ~ In (e_node m) visited ->
  SearchInv g cost s
    (fun x => if Nat.eqb x (e_node m) then e_cost m else d x)
    (e_node m :: visited)
    (rest ++ map (extend cost m) (Neighbors g (e_node m))).
Proof.
  intros I E Hm. pose proof (extractMin_in _ _ _ E) as Hin.
  assert (Hok : entry_ok g cost s m).
  { apply (inv_entries _ _ _ _ _ _ I). apply Hin. now left. }
  constructor.
  - intros y Hy. apply in_app_or in Hy. destruct Hy as [Hy|Hy].
    + apply (inv_entries _ _ _ _ _ _ I). apply Hin. now right.
    + apply in_map_iff in Hy. destruct Hy as (e & <- & He).
      apply Neighbors_In in He. destruct He as [He Hs].
      destruct Hok as (Hp & Hc & Hd & Hh).
      unfold entry_ok, extend. simpl.
      split; [now apply is_path_snoc with (x := e_node m)|].
      rewrite !path_cost_app, length_app. simpl.
      repeat split; try lra; try lia.
  - intros x p [<-|Hx] Hp.
    + rewrite Nat.eqb_refl.
      destruct (frontier_covers _ _ _ I p _ Hp Hm) as (y & Hy & Hc).
      pose proof (extractMin_least _ _ _ E y Hy). lra.
    + destruct (Nat.eqb_spec x (e_node m)) as [->|_]; [contradiction|].
      now apply (inv_settled _ _ _ _ _ _ I).
  - intros x e Hx He Hs Hd.
    assert (Hd' : ~ In (destination e) visited) by (intros H; apply Hd; now right).
    destruct Hx as [<-|Hx].
    + rewrite <- Hs, Nat.eqb_refl. exists (extend cost m e).
      split; [|split; [reflexivity|simpl; lra]].
      apply in_or_app. right. apply in_map. apply Neighbors_In. auto.
    + destruct (Nat.eqb_spec x (e_node m)) as [->|_]; [contradiction|].
      destruct (inv_relaxed _ _ _ _ _ _ I x e Hx He Hs Hd') as (y & Hy & Hn & Hc).
      exists y. repeat split; auto.
      apply in_or_app. left.
      apply Hin in Hy. destruct Hy as [->|Hy]; [|exact Hy].
      exfalso. apply Hd. left. now rewrite Hn.
  - destruct (inv_start _ _ _ _ _ _ I) as [Hs|(y & Hy & Hn & Hc)];
      [left; now right|].
    apply Hin in Hy. destruct Hy as [->|Hy].
    + left. left. exact Hn.
    + right. exists y. repeat split; auto. apply in_or_app. now left.
Qed.

(** What the search returns, when it returns. *)
Lemma search_invariant budget :
  forall d visited frontier,
    SearchInv g cost s d visited frontier ->
    ~ In t visited ->
    match search g cost t budget visited frontier with
    | Found r =>
        e_node r = t /\ entry_ok g cost s r /\
        forall p, is_path g s p t -> e_cost r <= path_cost cost p
    | NoRoute => forall p, ~ is_path g s p t
    | BudgetExhausted => True
    end.
Proof.
  induction budget as [|budget IH]; intros d visited frontier I Ht; simpl; [trivial|].
  destruct (extractMin frontier) as [[m rest]|] eqn:E.
  - destruct (visitedb visited (e_node m)) eqn:Hvis.
    + apply visitedb_In in Hvis. apply (IH d); [|exact Ht].
      eapply inv_skip; eauto.
    + apply visitedb_not_In in Hvis.
      destruct (Nat.eqb_spec (e_node m) t) as [Hmt|Hmt].
      * split; [exact Hmt|]. split.
        -- apply (inv_entries _ _ _ _ _ _ I). apply (extractMin_in _ _ _ E). now left.
        -- intros p Hp.
           destruct (frontier_covers _ _ _ I p t Hp Ht) as (y & Hy & Hc).
           pose proof (extractMin_least _ _ _ E y Hy). lra.
      * eapply IH; [eapply inv_settle; eauto|].
        intros [H|H]; [contradiction|contradiction].
  - apply extractMin_none in E. subst. intros p Hp.
    destruct (frontier_covers _ _ _ I p t Hp Ht) as (y & [] & _).
Qed.

End SearchFacts.

Section SearchBudget.
Import Js RouteSearch.

Variable g : Graph.
Variable cost : Edge -> Q.
Variable t : NodeID.

Lemma unsettled_edges_split visited u :
  ~ In u visited ->
  List.length (filter (fun e => negb (visitedb visited (source e))) g)
  = (List.length (Neighbors g u)
     + List.length (filter (fun e => negb (visitedb (u :: visited) (source e))) g))%nat.
Proof.
  intros Hu. apply visitedb_not_In in Hu.
  unfold Neighbors, visitedb in *. generalize g as l.
  induction l as [|e l IH]; [reflexivity|].
  simpl in IH |- *. destruct (Nat.eqb_spec (source e) u) as [E|N].
  - rewrite E, Hu. simpl. now rewrite IH.
  - destruct (existsb (Nat.eqb (source e)) visited); simpl; rewrite IH; lia.
Qed.

Lemma pending_skip visited frontier m rest :
  extractMin frontier = Some (m, rest) ->
  pending g visited frontier = S (pending g visited rest).
Proof.
  intros E. unfold pending. now rewrite (extractMin_length _ _ _ E).
Qed.

Lemma pending_settle visited frontier m rest :
  extractMin frontier = Some (m, rest) ->
  ~ In (e_node m) visited ->
  pending g visited frontier
  = S (pending g (e_node m :: visited)
         (rest ++ map (extend cost m) (Neighbors g (e_node m)))).
Proof.
  intros E Hm. unfold pending.
  rewrite (extractMin_length _ _ _ E), length_app, length_map.
  rewrite (unsettled_edges_split visited (e_node m) Hm). lia.
Qed.

(** The search ends within the budget whenever the budget exceeds the work
    that is pending. *)
Lemma search_terminates budget :
  forall visited frontier,
    (pending g visited frontier < budget)%nat ->
    search g cost t budget visited frontier <> BudgetExhausted.
Proof.
  induction budget as [|budget IH]; intros visited frontier Hlt; [lia|].
  simpl. destruct (extractMin frontier) as [[m rest]|] eqn:E; [|discriminate].
  destruct (visitedb visited (e_node m)) eqn:Hvis.
  - apply IH. rewrite (pending_skip _ _ _ _ E) in Hlt. lia.
  - destruct (Nat.eqb (e_node m) t); [discriminate|].
    apply visitedb_not_In in Hvis.
    apply IH. rewrite (pending_settle _ _ _ _ E Hvis) in Hlt. lia.
Qed.

(** A search that ends within its budget ends the same way within any
    larger one. *)
Lemma search_budget_mono budget :
  forall visited frontier budget',
    search g cost t budget visited frontier <> BudgetExhausted ->
    (budget <= budget')%nat ->
    search g cost t budget' visited frontier
    = search g cost t budget visited frontier.
Proof.
  induction budget as [|budget IH]; intros visited frontier budget' H Hle.
  - exfalso. now apply H.
  - destruct budget' as [|budget']; [lia|].
    simpl in *. destruct (extractMin frontier) as [[m rest]|]; [|reflexivity].
    destruct (visitedb visited (e_node m)).
    + apply IH; [exact H|lia].
    + destruct (Nat.eqb (e_node m) t); [reflexivity|].
      apply IH; [exact H|lia].
Qed.

(** The entry the search returns is one of the paths it was given or built. *)
Lemma search_entry_ok s budget :
  forall visited frontier r,
    (forall m, In m frontier -> entry_ok g cost s m) ->
    search g cost t budget visited frontier = Found r ->
    entry_ok g cost s r /\ e_node r = t.
Proof.
  induction budget as [|budget IH]; intros visited frontier r Hall; [discriminate|].
  simpl. destruct (extractMin frontier) as [[m rest]|] eqn:E; [|discriminate].
  pose proof (extractMin_in _ _ _ E) as Hin.
  destruct (visitedb visited (e_node m)).
  - apply IH. intros y Hy. apply Hall, Hin. now right.
  - destruct (Nat.eqb_spec (e_node m) t) as [Hmt|_].
    + intros H. inversion H; subst. split; [|reflexivity]. apply Hall, Hin. now left.
    + apply IH. intros y Hy. apply in_app_or in Hy. destruct Hy as [Hy|Hy].
      * apply Hall, Hin. now right.
      * apply in_map_iff in Hy. destruct Hy as (e & <- & He).
        apply Neighbors_In in He. destruct He as [He Hs].
        destruct (Hall m (proj2 (Hin m) (or_introl eq_refl))) as (Hp & Hc & Hd & Hh).
        unfold entry_ok, extend. simpl.
        split; [now apply is_path_snoc with (x := e_node m)|].
        rewrite !path_cost_app, length_app. simpl.
        repeat split; try lra; try lia.
Qed.

Lemma bestRoute_terminates s budget :
  (enough g <= budget)%nat -> bestRoute g cost s t budget <> BudgetExhausted.
Proof.
  intros H. apply search_terminates. unfold pending, enough in *.
  pose proof (filter_length_le (fun e => negb (visitedb [] (source e))) g) as Hf.
  change (List.length [start s]) with 1%nat. lia.
Qed.

Lemma bestRoute_entry_ok s budget r :
  bestRoute g cost s t budget = Found r -> entry_ok g cost s r /\ e_node r = t.
Proof.
  apply search_entry_ok. intros m [<-|[]].
  unfold entry_ok, is_path. simpl. repeat split; auto; reflexivity.
Qed.

Lemma bestRoute_optimal s budget :
  (forall e, In e g -> 0 <= cost e) ->
  match bestRoute g cost s t budget with
  | Found r => forall p, is_path g s p t -> e_cost r <= path_cost cost p
  | NoRoute => forall p, ~ is_path g s p t
  | BudgetExhausted => True
  end.
Proof.
  intros Hc.
  pose proof (search_invariant g cost s t Hc budget (fun _ => 0) [] [start s]
                (inv_init g cost s) (fun H => H)) as H.
  unfold bestRoute. destruct (search _ _ _ _ _ _); tauto.
Qed.

End SearchBudget.

Section PlanRouteClaims.
Import Js RouteSearch.

Lemma clamp_lower x lo hi : lo <= clamp x lo hi.
Proof. unfold clamp. apply Math_max_spec. Qed.

Lemma clamp_mono x y lo hi : x <= y -> clamp x lo hi <= clamp y lo hi.
Proof.
  intros H. unfold clamp, Math_max, Math_min.
  destruct (Qlt_le_dec x hi), (Qlt_le_dec y hi);
    repeat match goal with
           | |- context [Qlt_le_dec ?a ?b] => destruct (Qlt_le_dec a b)
           end;
    lra.
Qed.

Lemma effectiveCost_nonneg mcm w e : 0 <= freeFlowCost e -> 0 <= effectiveCost mcm w e.
Proof.
  intros H. unfold effectiveCost.
  pose proof (clamp_lower (w (edge_id e)) 1 mcm). nra.
Qed.

Lemma effectiveCost_mono mcm w w' e0 e :
  0 <= freeFlowCost e -> increased w w' e0 ->
  effectiveCost mcm w e <= effectiveCost mcm w' e.
Proof.
  intros H [Hup Hfix]. unfold effectiveCost.
  assert (Hw : w (edge_id e) <= w' (edge_id e)).
  { destruct (Nat.eq_dec (edge_id e) e0) as [->|N]; [exact Hup|].
    rewrite (Hfix _ N). lra. }
  pose proof (clamp_mono _ _ 1 mcm Hw). nra.
Qed.

Lemma costFor_nonneg opt mcm w e :
  0 <= freeFlowCost e /\ 0 <= distance e -> 0 <= costFor opt mcm w e.
Proof.
  intros [Hf Hd]. destruct opt; simpl; [now apply effectiveCost_nonneg|exact Hd].
Qed.

Lemma costFor_mono opt mcm w w' e0 e :
  0 <= freeFlowCost e -> increased w w' e0 ->
  costFor opt mcm w e <= costFor opt mcm w' e.
Proof.
  intros Hf Hinc. destruct opt; simpl; [now apply effectiveCost_mono with e0|lra].
Qed.

Lemma search_cost_ext g cost cost' t :
  (forall e, In e g -> cost' e = cost e) ->
  forall budget visited frontier,
    search g cost' t budget visited frontier
    = search g cost t budget visited frontier.
Proof.
  intros Hc. induction budget as [|budget IH]; intros visited frontier;
    [reflexivity|].
  simpl. destruct (extractMin frontier) as [[m rest]|]; [|reflexivity].
  destruct (visitedb visited (e_node m)); [apply IH|].
  destruct (Nat.eqb (e_node m) t); [reflexivity|].
  rewrite IH. do 2 f_equal. apply map_ext_in.
  intros e He. apply Neighbors_In in He. unfold extend.
  now rewrite (Hc e (proj1 He)).
Qed.

Lemma costFor_agree g opt mcm w w' :
  agree g w w' -> forall e, In e g -> costFor opt mcm w' e = costFor opt mcm w e.
Proof.
  intros Hag e He. destruct opt; [|reflexivity].
  simpl. unfold effectiveCost. now rewrite (Hag e He).
Qed.


Lemma clamp_cases x lo hi :
  lo <= hi ->
  clamp x lo hi <= hi /\
  (x <= lo -> clamp x lo hi == lo) /\
  (lo <= x -> x <= hi -> clamp x lo hi == x) /\
  (hi <= x -> clamp x lo hi == hi).
Proof.
  intros H. unfold clamp, Math_max, Math_min.
  destruct (Qlt_le_dec x hi); destruct (Qlt_le_dec lo _);
    repeat split; intros; lra.
Qed.

(** C3.  The effective cost of an edge is its free-flow cost times the
    weight brought into the interval from 1.0 to the maximum congestion
    multiplier.  The multiplier is never below 1.0: a weight below 1.0
    counts as 1.0, one above the maximum as the maximum, and any other as
    itself; so the free-flow cost is a floor on the effective cost.  Both
    hold again after every weight update, whatever the edge updated and the
    new weight, and an update leaves the cost of every other edge as it
    was. *)
Theorem effectiveCost_floor (maxCongestionMultiplier : Q) (w : WeightSnapshot)
    (e : Edge) :
  0 <= freeFlowCost e -> 1 <= maxCongestionMultiplier ->
  let multiplier snapshot := clamp (snapshot (edge_id e)) 1 maxCongestionMultiplier in
  effectiveCost maxCongestionMultiplier w e = freeFlowCost e * multiplier w /\
  (1 <= multiplier w /\ multiplier w <= maxCongestionMultiplier) /\
  (w (edge_id e) <= 1 ->
   multiplier w == 1 /\ effectiveCost maxCongestionMultiplier w e == freeFlowCost e) /\
  (1 <= w (edge_id e) -> w (edge_id e) <= maxCongestionMultiplier ->
   multiplier w == w (edge_id e)) /\
  (maxCongestionMultiplier <= w (edge_id e) ->
   multiplier w == maxCongestionMultiplier) /\
  freeFlowCost e <= effectiveCost maxCongestionMultiplier w e /\
  forall edge newWeight,
    1 <= multiplier (updateWeight w edge newWeight) /\
    freeFlowCost e
    <= effectiveCost maxCongestionMultiplier (updateWeight w edge newWeight) e /\
    (edge_id e <> edge ->
     effectiveCost maxCongestionMultiplier (updateWeight w edge newWeight) e
     = effectiveCost maxCongestionMultiplier w e).
Proof.
  intros Hf Hm multiplier.
  assert (Hfloor : forall snapshot,
             1 <= multiplier snapshot /\
             freeFlowCost e <= effectiveCost maxCongestionMultiplier snapshot e).
  { intros snapshot.
    pose proof (clamp_lower (snapshot (edge_id e)) 1 maxCongestionMultiplier) as Hl.
    split; [exact Hl|]. unfold effectiveCost.
    fold (multiplier snapshot) in Hl |- *. nra. }
  destruct (clamp_cases (w (edge_id e)) 1 maxCongestionMultiplier Hm)
    as (Hup & Hlow & Hmid & Hcap).
  fold (multiplier w) in Hup, Hlow, Hmid, Hcap.
  split; [reflexivity|].
  split; [split; [apply Hfloor|exact Hup]|].
  split.
  { intros H. split; [now apply Hlow|].
    unfold effectiveCost. fold (multiplier w). rewrite (Hlow H). ring. }
  split; [exact Hmid|]. split; [exact Hcap|].
  split; [apply Hfloor|].
  intros edge newWeight. split; [apply Hfloor|]. split; [apply Hfloor|].
  intros Hne. unfold effectiveCost, updateWeight.
  destruct (Nat.eqb_spec (edge_id e) edge); [contradiction|reflexivity].
Qed.

(** The direct edge of the triangle at half the free-flow weight, before
    and after its weight is set to a tenth: the cost stays at the free-flow
    cost of 10. *)
Lemma effectiveCost_floor_witness :
  effectiveCost 5 swift (mkEdge 0%nat 0%nat 1%nat 10 900) == 10 /\
  10 <= effectiveCost 5 (updateWeight swift 0%nat (1 # 10))
          (mkEdge 0%nat 0%nat 1%nat 10 900).
Proof.
  assert (Hf : 0 <= freeFlowCost (mkEdge 0%nat 0%nat 1%nat 10 900)) by (simpl; lra).
  assert (Hm : 1 <= 5) by lra.
  destruct (effectiveCost_floor 5 swift (mkEdge 0%nat 0%nat 1%nat 10 900) Hf Hm)
    as (_ & _ & Hlow & _ & _ & _ & Hupd).
  split.
  - apply Hlow. unfold swift. lra.
  - apply (Hupd 0%nat (1 # 10)).
Defined.

Context {Coord : Type}.
Variable nearestNode : Coord -> option NodeID.
Variable g : Graph.
Variable maxCongestionMultiplier : Q.

(** C7.  In a network whose free-flow costs and lengths are not negative,
    let the weight of one edge increase, all others staying as they are.
    Then no path gets cheaper; and when [PlanRoute] returned a best route
    before (one that uses the edge or not), it does not report
    [NoRouteFound] afterwards, the best route it returns afterwards costs
    no less, and it does return one whenever its budget is [enough]. *)
Theorem PlanRoute_monotone (w w' : WeightSnapshot) (e0 : EdgeID)
    (originCoord destCoord : Coord) (opt : OptimizeFor) (budget budget' : nat) :
  (forall e, In e g -> 0 <= freeFlowCost e /\ 0 <= distance e) ->
  increased w w' e0 ->
  (forall p, Forall (fun e => In e g) p ->
     path_cost (costFor opt maxCongestionMultiplier w) p
     <= path_cost (costFor opt maxCongestionMultiplier w') p) /\
  forall r,
    PlanRoute nearestNode g maxCongestionMultiplier w
      originCoord destCoord opt budget = inl r ->
    PlanRoute nearestNode g maxCongestionMultiplier w'
      originCoord destCoord opt budget' <> inr NoRouteFound /\
    (forall r',
        PlanRoute nearestNode g maxCongestionMultiplier w'
          originCoord destCoord opt budget' = inl r' ->
        total_cost r <= total_cost r') /\
    ((enough g <= budget')%nat ->
     exists r',
       PlanRoute nearestNode g maxCongestionMultiplier w'
         originCoord destCoord opt budget' = inl r').
Proof.
  intros Hnn Hinc.
  set (c := costFor opt maxCongestionMultiplier w).
  set (c' := costFor opt maxCongestionMultiplier w').
  assert (Hmono : forall p, Forall (fun e => In e g) p -> path_cost c p <= path_cost c' p).
  { intros p Hp. apply (path_cost_le g); [|exact Hp].
    intros e He. apply costFor_mono with e0; [apply Hnn, He|exact Hinc]. }
  split; [exact Hmono|].
  intros r. unfold PlanRoute. fold c c'.
  destruct (nearestNode originCoord) as [s|]; [|discriminate].
  destruct (nearestNode destCoord) as [t|]; [|discriminate].
  destruct (bestRoute g c s t budget) as [m| |] eqn:E; try discriminate.
  intros Hr. inversion Hr; subst r; clear Hr. simpl.
  destruct (bestRoute_entry_ok g c t s budget m E) as ((Hpath & Hcost & _) & Hnode).
  rewrite Hnode in Hpath.
  pose proof (bestRoute_optimal g c t s budget
                (fun e He => costFor_nonneg opt _ w e (Hnn e He))) as Hopt.
  rewrite E in Hopt.
  pose proof (bestRoute_optimal g c' t s budget'
                (fun e He => costFor_nonneg opt _ w' e (Hnn e He))) as Hopt'.
  pose proof (bestRoute_terminates g c' t s budget') as Hterm.
  destruct (bestRoute g c' s t budget') as [m'| |] eqn:E'.
  - split; [discriminate|]. split.
    + intros r' Hr'. inversion Hr'; subst r'; clear Hr'. simpl.
      destruct (bestRoute_entry_ok g c' t s budget' m' E')
        as ((Hpath' & Hcost' & _) & Hnode').
      rewrite Hnode' in Hpath'.
      pose proof (Hopt _ Hpath').
      pose proof (Hmono _ (proj1 Hpath')). lra.
    + intros _. eexists. reflexivity.
  - exfalso. exact (Hopt' _ Hpath).
  - split; [discriminate|]. split; [discriminate|].
    intros Hb. exfalso. now apply Hterm.
Qed.

Lemma PlanRoute_agree (w w' : WeightSnapshot) (originCoord destCoord : Coord)
    (opt : OptimizeFor) (budget : nat) :
  agree g w w' ->
  PlanRoute nearestNode g maxCongestionMultiplier w' originCoord destCoord opt budget
  = PlanRoute nearestNode g maxCongestionMultiplier w originCoord destCoord opt budget.
Proof.
  intros Hag. unfold PlanRoute.
  destruct (nearestNode originCoord) as [s|]; [|reflexivity].
  destruct (nearestNode destCoord) as [t|]; [|reflexivity].
  unfold bestRoute.
  rewrite (search_cost_ext g _ _ t (costFor_agree g opt _ w w' Hag)).
  fold (bestRoute g (costFor opt maxCongestionMultiplier w) s t budget).
  destruct (bestRoute g (costFor opt maxCongestionMultiplier w) s t budget)
    as [r| |] eqn:E; try reflexivity.
  destruct (bestRoute_entry_ok g _ t s budget r E) as (((Hin & _) & _) & _).
  do 2 f_equal. apply map_ext_in. intros e He.
  apply Hag. rewrite Forall_forall in Hin. now apply Hin.
Qed.

Lemma PlanRoute_budget (w : WeightSnapshot) (originCoord destCoord : Coord)
    (opt : OptimizeFor) (budget budget' : nat) :
  (budget <= budget')%nat ->
  PlanRoute nearestNode g maxCongestionMultiplier w originCoord destCoord opt budget
  <> inr RouteSearchTimeout ->
  PlanRoute nearestNode g maxCongestionMultiplier w originCoord destCoord opt budget'
  = PlanRoute nearestNode g maxCongestionMultiplier w originCoord destCoord opt budget.
Proof.
  unfold PlanRoute. intros Hle Hne.
  destruct (nearestNode originCoord) as [s|]; [|reflexivity].
  destruct (nearestNode destCoord) as [t|]; [|reflexivity].
  unfold bestRoute in *.
  rewrite (search_budget_mono g _ t budget [] [start s] budget'); auto.
  intros H. apply Hne. now rewrite H.
Qed.

Lemma PlanRoute_in_time (w : WeightSnapshot) (originCoord destCoord : Coord)
    (opt : OptimizeFor) (budget : nat) :
  (enough g <= budget)%nat ->
  PlanRoute nearestNode g maxCongestionMultiplier w originCoord destCoord opt budget
  <> inr RouteSearchTimeout.
Proof.
  unfold PlanRoute. intros Hb.
  destruct (nearestNode originCoord) as [s|]; [|discriminate].
  destruct (nearestNode destCoord) as [t|]; [|discriminate].
  pose proof (bestRoute_terminates g (costFor opt maxCongestionMultiplier w)
                t s budget Hb) as Hterm.
  destruct (bestRoute g _ s t budget); try discriminate. now elim Hterm.
Qed.

(** C5.  Two runs of [PlanRoute] with the same coordinates and options, on
    snapshots that carry the same weight for every edge of the network
    (no ingestion in between), return the same result, the route edge by
    edge and its total cost: at equal budgets; at different budgets as soon
    as the run with the smaller one is not cut off; and at any two budgets
    that are [enough], under which no run is cut off.  So nothing but the
    network, the weights of its edges, the coordinates and the options
    decides the result, the budget, which stands for the deadline, only
    whether there is one.  What is returned is the search's answer: a
    returned route is a path of the network between the two resolved nodes
    whose total cost is the cost of its edges under the snapshot; with
    costs that are not negative no path is cheaper, and within a budget
    that is [enough] a route is returned whenever there is a path. *)
Theorem PlanRoute_deterministic (w w' : WeightSnapshot)
    (originCoord destCoord : Coord) (opt : OptimizeFor) (budget budget' : nat) :
  agree g w w' ->
  let first :=
    PlanRoute nearestNode g maxCongestionMultiplier w
      originCoord destCoord opt budget in
  let second :=
    PlanRoute nearestNode g maxCongestionMultiplier w'
      originCoord destCoord opt budget' in
  (budget' = budget -> second = first) /\
  ((budget <= budget')%nat -> first <> inr RouteSearchTimeout -> second = first) /\
  ((enough g <= budget)%nat -> (enough g <= budget')%nat ->
   second = first /\ first <> inr RouteSearchTimeout) /\
  (forall r, first = inl r ->
     exists s t,
       nearestNode originCoord = Some s /\ nearestNode destCoord = Some t /\
       is_path g s (route_edges r) t /\
       total_cost r
       == path_cost (costFor opt maxCongestionMultiplier w) (route_edges r) /\
       total_distance r == path_cost distance (route_edges r) /\
       congestion r = map (fun e => w (edge_id e)) (route_edges r) /\
       ((forall e, In e g -> 0 <= freeFlowCost e /\ 0 <= distance e) ->
        forall p, is_path g s p t ->
          total_cost r <= path_cost (costFor opt maxCongestionMultiplier w) p)) /\
  (forall s t p,
     (forall e, In e g -> 0 <= freeFlowCost e /\ 0 <= distance e) ->
     nearestNode originCoord = Some s -> nearestNode destCoord = Some t ->
     is_path g s p t -> (enough g <= budget)%nat ->
     exists r, first = inl r).
Proof.
  intros Hag first second. subst first second.
  split; [intros ->; now apply PlanRoute_agree|].
  split.
  { intros Hle Hne. rewrite (PlanRoute_agree w w') by exact Hag.
    now apply PlanRoute_budget. }
  split.
  { intros Hb Hb'.
    pose proof (PlanRoute_in_time w originCoord destCoord opt budget Hb) as Hne.
    pose proof (PlanRoute_in_time w originCoord destCoord opt budget' Hb') as Hne'.
    split; [|exact Hne].
    rewrite (PlanRoute_agree w w') by exact Hag.
    destruct (Nat.le_ge_cases budget budget') as [Hle|Hle].
    - now apply PlanRoute_budget.
    - symmetry. now apply PlanRoute_budget. }
  unfold PlanRoute.
  set (c := costFor opt maxCongestionMultiplier w).
  split.
  - intros r.
    destruct (nearestNode originCoord) as [s|]; [|discriminate].
    destruct (nearestNode destCoord) as [t|]; [|discriminate].
    destruct (bestRoute g c s t budget) as [m| |] eqn:E; try discriminate.
    intros Hr. inversion Hr; subst r; clear Hr. cbn [route_edges total_cost
      total_distance congestion].
    destruct (bestRoute_entry_ok g c t s budget m E)
      as ((Hpath & Hcost & Hdist & _) & Hnode).
    rewrite Hnode in Hpath.
    exists s, t. repeat split; auto; try apply Hpath.
    intros Hnn p Hp.
    pose proof (bestRoute_optimal g c t s budget
                  (fun e He => costFor_nonneg opt _ w e (Hnn e He))) as Hopt.
    rewrite E in Hopt. now apply Hopt.
  - intros s t p Hnn -> -> Hp Hb.
    pose proof (bestRoute_optimal g c t s budget
                  (fun e He => costFor_nonneg opt _ w e (Hnn e He))) as Hopt.
    pose proof (bestRoute_terminates g c t s budget Hb) as Hterm.
    destruct (bestRoute g c s t budget) as [m| |].
    + eexists. reflexivity.
    + exfalso. exact (Hopt p Hp).
    + exfalso. now apply Hterm.
Qed.


End PlanRouteClaims.

Section PlanRouteSamples.
Import Js RouteSearch.

Lemma triangle_costs : forall e, In e triangle -> 0 <= freeFlowCost e /\ 0 <= distance e.
Proof.
  intros e He. simpl in He.
  repeat (destruct He as [<-|He]; [simpl; split; lra|]). destruct He.
Qed.

Lemma congested_increased : increased freeFlow congested 1%nat.
Proof.
  split; [unfold freeFlow, congested; simpl; lra|].
  intros i Hi. unfold freeFlow, congested.
  destruct (Nat.eqb_spec i 1%nat); [contradiction|reflexivity].
Qed.

(** The search of the triangle, before and after edge 1 slows down: the
    best route costs 8 over node 2 before; a route is still found after, at
    no lower cost. *)
Lemma PlanRoute_monotone_witness :
  (forall e, In e triangle -> 0 <= freeFlowCost e /\ 0 <= distance e) /\
  increased freeFlow congested 1%nat /\
  exists r',
    PlanRoute onNode triangle 5 congested 0%nat 1%nat ByTime 10 = inl r' /\
    8 <= total_cost r'.
Proof.
  split; [exact triangle_costs|]. split; [exact congested_increased|].
  destruct (PlanRoute_monotone onNode triangle 5 freeFlow congested 1%nat
              0%nat 1%nat ByTime 10 10 triangle_costs congested_increased)
    as [_ H].
  edestruct H as (_ & Hcost & Hfound); [vm_compute; reflexivity|].
  destruct Hfound as [r' Hr']; [unfold enough; simpl; lia|].
  exists r'. split; [exact Hr'|].
  apply Hcost in Hr'. simpl in Hr'. exact Hr'.
Defined.

Lemma freeFlowAndMore_agree : agree triangle freeFlow freeFlowAndMore.
Proof.
  intros e He. simpl in He.
  repeat (destruct He as [<-|He]; [reflexivity|]). destruct He.
Qed.

(** The same query on two snapshots that differ only in the entry of an
    edge the triangle lacks, with the budgets 5 and 50. *)
Lemma PlanRoute_deterministic_witness :
  agree triangle freeFlow freeFlowAndMore /\
  freeFlowAndMore 7%nat = 4 /\ freeFlow 7%nat = 1 /\
  PlanRoute onNode triangle 5 freeFlowAndMore 0%nat 1%nat ByTime 50
  = PlanRoute onNode triangle 5 freeFlow 0%nat 1%nat ByTime 5.
Proof.
  split; [exact freeFlowAndMore_agree|]. split; [reflexivity|].
  split; [reflexivity|].
  destruct (PlanRoute_deterministic onNode triangle 5 freeFlow freeFlowAndMore
              0%nat 1%nat ByTime 5 50 freeFlowAndMore_agree)
    as (_ & Hbudget & _).
  apply Hbudget; [lia|vm_compute; discriminate].
Defined.

(** The concrete scenarios of section 8 of the specification. *)

Example scenario_A :
  PlanRoute onNode triangle 5 freeFlow 0%nat 1%nat ByTime 10
  = inl {| route_edges := [ mkEdge 1%nat 0%nat 2%nat 4 500;
                            mkEdge 2%nat 2%nat 1%nat 4 500 ];
           total_cost := 8; total_distance := 1000; congestion := [1; 1] |}.
Proof. reflexivity. Qed.

Example scenario_B :
  effectiveCost 5 directJam (mkEdge 0%nat 0%nat 1%nat 10 900) = 30 /\
  PlanRoute onNode triangle 5 directJam 0%nat 1%nat ByTime 10
  = PlanRoute onNode triangle 5 freeFlow 0%nat 1%nat ByTime 10.
Proof. split; reflexivity. Qed.

Example scenario_C :
  PlanRoute onNode triangle 5 freeFlow 0%nat 50%nat ByTime 10
  = inr UnresolvableLocation.
Proof. reflexivity. Qed.

Example scenario_D :
  PlanRoute onNode triangle 5 freeFlow 0%nat 3%nat ByTime 10 = inr NoRouteFound.
Proof. reflexivity. Qed.

End PlanRouteSamples.

(* ================================================================== *)
(** * Further properties of the front end *)
(* ================================================================== *)

(** ** Rounding *)

Section RoundingFacts.
Import Js.

Lemma Math_round_ge (a : Z) (x : Q) : inject_Z a <= x -> (a <= Math_round x)%Z.
Proof.
  intros H. unfold Math_round. rewrite <- (Qfloor_Z a).
  apply Qfloor_resp_le. lra.
Qed.

Lemma Math_round_ge_half (a : Z) (x : Q) :
  inject_Z a - (1 # 2) <= x -> (a <= Math_round x)%Z.
Proof.
  intros H. unfold Math_round. rewrite <- (Qfloor_Z a).
  apply Qfloor_resp_le. lra.
Qed.

Lemma Math_round_le (b : Z) (x : Q) :
  x < inject_Z b + (1 # 2) -> (Math_round x <= b)%Z.
Proof.
  intros H. unfold Math_round.
  pose proof (Qfloor_le (x + (1 # 2))) as Hf.
  assert (Hlt : inject_Z (Qfloor (x + (1 # 2))) < inject_Z (b + 1)).
  { rewrite inject_Z_plus. change (inject_Z 1) with 1. lra. }
  rewrite <- Zlt_Qlt in Hlt. lia.
Qed.

Lemma Math_round_inject (n : Z) : Math_round (inject_Z n) = n.
Proof.
  apply Z.le_antisymm.
  - apply Math_round_le. lra.
  - apply Math_round_ge. lra.
Qed.

(** Rounding to hundredths and reading the hundredths back. *)
Lemma Math_round_hundredths (x : Q) :
  Math_round (inject_Z (Math_round x) / 100 * 100) = Math_round x.
Proof.
  assert (E : inject_Z (Math_round x) / 100 * 100 == inject_Z (Math_round x))
    by (field).
  unfold Math_round at 1. rewrite (Qfloor_comp _ _ (Qplus_comp _ _ E _ _ (Qeq_refl _))).
  apply Math_round_inject.
Qed.

End RoundingFacts.


(** ** The mock traffic data of the map *)

Section MockTraffic.
Import Js TrafficDataContext.

Lemma drawCongestion_rush (h : Z) (r : Q) :
  (7 <= h <= 9)%Z \/ (17 <= h <= 19)%Z ->
  TrafficMap.drawCongestion h r = r * (5 # 10) + (4 # 10).
Proof.
  intros H. unfold TrafficMap.drawCongestion.
  replace ((7 <=? h)%Z && (h <=? 9)%Z || (17 <=? h)%Z && (h <=? 19)%Z)%bool
    with true; [reflexivity|].
  symmetry. apply orb_true_iff. rewrite !andb_true_iff, !Z.leb_le. lia.
Qed.

Lemma drawCongestion_midday (h : Z) (r : Q) :
  (10 <= h <= 16)%Z ->
  TrafficMap.drawCongestion h r = r * (4 # 10) + (2 # 10).
Proof.
  intros H. unfold TrafficMap.drawCongestion.
  replace ((7 <=? h)%Z && (h <=? 9)%Z || (17 <=? h)%Z && (h <=? 19)%Z)%bool
    with false.
  - replace ((10 <=? h)%Z && (h <=? 16)%Z)%bool with true; [reflexivity|].
    symmetry. rewrite andb_true_iff, !Z.leb_le. lia.
  - symmetry. apply orb_false_iff. rewrite !andb_false_iff, !Z.leb_gt. lia.
Qed.

Lemma drawCongestion_night (h : Z) (r : Q) :
  (h < 7)%Z \/ (19 < h)%Z ->
  TrafficMap.drawCongestion h r = r * (3 # 10) + (1 # 10).
Proof.
  intros H. unfold TrafficMap.drawCongestion.
  replace ((7 <=? h)%Z && (h <=? 9)%Z || (17 <=? h)%Z && (h <=? 19)%Z)%bool
    with false.
  - replace ((10 <=? h)%Z && (h <=? 16)%Z)%bool with false; [reflexivity|].
    symmetry. rewrite andb_false_iff, !Z.leb_gt. lia.
  - symmetry. apply orb_false_iff. rewrite !andb_false_iff, !Z.leb_gt. lia.
Qed.

Lemma hour_cases (h : Z) :
  ((7 <= h <= 9)%Z \/ (17 <= h <= 19)%Z) \/ (10 <= h <= 16)%Z \/
  ((h < 7)%Z \/ (19 < h)%Z).
Proof. lia. Qed.

Lemma drawCongestion_range (h : Z) (r : Q) :
  0 <= r -> r < 1 ->
  1 # 10 <= TrafficMap.drawCongestion h r /\ TrafficMap.drawCongestion h r < 9 # 10.
Proof.
  intros H0 H1. destruct (hour_cases h) as [H|[H|H]].
  - rewrite drawCongestion_rush by exact H. split; lra.
  - rewrite drawCongestion_midday by exact H. split; lra.
  - rewrite drawCongestion_night by exact H. split; lra.
Qed.

(** The level stored for a segment is a whole number of hundredths. *)
Lemma mockPoint_level (env : TrafficMap.Env) (index : nat) (segment : TrafficMap.Segment) :
  congestion_level (TrafficMap.mockPoint env index segment)
  = inject_Z (Math_round
      (TrafficMap.drawCongestion (TrafficMap.getHours env index)
         (TrafficMap.random env (3 * index)) * 100)) / 100.
Proof. reflexivity. Qed.

Lemma hundredths_between (a b : Z) (x : Q) :
  inject_Z a <= x * 100 -> x * 100 < inject_Z b + (1 # 2) ->
  a # 100 <= inject_Z (Math_round (x * 100)) / 100 /\
  inject_Z (Math_round (x * 100)) / 100 <= b # 100.
Proof.
  intros Ha Hb.
  pose proof (Math_round_ge a _ Ha) as H1.
  pose proof (Math_round_le b _ Hb) as H2.
  rewrite Zle_Qle in H1, H2.
  rewrite (Qmake_Qdiv a 100), (Qmake_Qdiv b 100).
  change (inject_Z (Zpos 100)) with 100. unfold Qdiv.
  split; apply Qmult_le_compat_r; try exact H1; try exact H2; discriminate.
Qed.

Lemma In_mockFrom env segments :
  forall index point,
    In point (TrafficMap.mockFrom env index segments) ->
    exists k segment,
      In segment segments /\ point = TrafficMap.mockPoint env k segment.
Proof.
  induction segments as [|segment rest IH]; intros index point; [intros []|].
  simpl. intros [<-|H].
  - exists index, segment. auto.
  - destruct (IH _ _ H) as (k & seg & Hin & ->). exists k, seg. auto.
Qed.

Lemma mockFrom_ids env segments :
  forall index,
    map road_segment_id (TrafficMap.mockFrom env index segments)
    = map TrafficMap.id segments.
Proof.
  induction segments as [|segment rest IH]; intros index; [reflexivity|].
  simpl. now rewrite IH.
Qed.

Lemma capeTownSegments_distinct : NoDup (map TrafficMap.id TrafficMap.capeTownSegments).
Proof.
  simpl.
  repeat (constructor;
          [simpl; intros H;
           repeat (destruct H as [H|H]; [discriminate H|]); exact H|]).
  constructor.
Qed.

(** X3.  Whatever the random draws (each in the interval from 0 to 1, 1
    excluded) and whatever the clock, [generateMockTrafficData] returns one
    point for each of the ten segments, with pairwise distinct identifiers;
    every point has a congestion level between 0.1 and 0.9 and a speed
    between 5 and 72, and lies close to its segment: its latitude and its
    longitude are off by a draw of at most a thousandth of a degree, stated
    here as within 0.0011 degree, which leaves a margin for the rounding of
    the sum in double precision. *)
Theorem generateMockTrafficData_ranges (env : TrafficMap.Env) :
  (forall k, 0 <= TrafficMap.random env k /\ TrafficMap.random env k < 1) ->
  map road_segment_id (TrafficMap.generateMockTrafficData env)
  = map TrafficMap.id TrafficMap.capeTownSegments /\
  NoDup (map road_segment_id (TrafficMap.generateMockTrafficData env)) /\
  forall point,
    In point (TrafficMap.generateMockTrafficData env) ->
    (1 # 10 <= congestion_level point /\ congestion_level point <= 9 # 10) /\
    (5 <= flow_speed point /\ flow_speed point <= 72) /\
    exists segment,
      In segment TrafficMap.capeTownSegments /\
      TrafficMap.id segment = road_segment_id point /\
      Qabs (latitude point - TrafficMap.lat segment) <= 11 # 10000 /\
      Qabs (longitude point - TrafficMap.lng segment) <= 11 # 10000.
Proof.
  intros Hr. unfold TrafficMap.generateMockTrafficData.
  split; [apply mockFrom_ids|].
  split; [rewrite mockFrom_ids; apply capeTownSegments_distinct|].
  intros point Hin.
  destruct (In_mockFrom _ _ _ _ Hin) as (k & segment & Hseg & ->).
  pose proof (Hr (3 * k)%nat) as [Ha0 Ha1].
  pose proof (Hr (3 * k + 1)%nat) as [Hb0 Hb1].
  pose proof (Hr (3 * k + 2)%nat) as [Hc0 Hc1].
  pose proof (drawCongestion_range (TrafficMap.getHours env k) _ Ha0 Ha1) as [Hlo Hhi].
  split; [|split].
  - rewrite mockPoint_level.
    destruct (hundredths_between 10 90
                (TrafficMap.drawCongestion (TrafficMap.getHours env k)
                   (TrafficMap.random env (3 * k)))) as [H1 H2].
    + change (inject_Z 10) with 10. lra.
    + change (inject_Z 90) with 90. lra.
    + set (level := inject_Z (Math_round _) / 100) in *.
      split; lra.
  - unfold TrafficMap.mockPoint. cbn [flow_speed].
    set (c := TrafficMap.drawCongestion _ _) in *.
    destruct (includes (TrafficMap.name segment) "Highway").
    + split.
      * change 5 with (inject_Z 5). rewrite <- Zle_Qle. apply Math_round_ge.
        change (inject_Z 5) with 5. lra.
      * change 72 with (inject_Z 72). rewrite <- Zle_Qle. apply Math_round_le.
        change (inject_Z 72) with 72. lra.
    + split.
      * change 5 with (inject_Z 5). rewrite <- Zle_Qle. apply Math_round_ge.
        change (inject_Z 5) with 5. lra.
      * change 72 with (inject_Z 72). rewrite <- Zle_Qle. apply Math_round_le.
        change (inject_Z 72) with 72. lra.
  - exists segment. split; [exact Hseg|]. split; [reflexivity|].
    unfold TrafficMap.mockPoint. cbn [latitude longitude].
    split; apply Qabs_Qle_condition; split; lra.
Qed.

End MockTraffic.

Section MockTrafficColours.
Import Js TrafficDataContext.

Lemma generateMockTrafficData_ranges_witness :
  (forall k, 0 <= TrafficMap.random Samples.steady k /\
             TrafficMap.random Samples.steady k < 1) /\
  NoDup (map road_segment_id (TrafficMap.generateMockTrafficData Samples.steady)).
Proof.
  assert (H : forall k, 0 <= TrafficMap.random Samples.steady k /\
                        TrafficMap.random Samples.steady k < 1).
  { intros k. simpl. split; lra. }
  split; [exact H|].
  exact (proj1 (proj2 (generateMockTrafficData_ranges Samples.steady H))).
Defined.

(** X4.  The colour of the marker of a mock point follows the hour of the
    clock: in the rush hours (7 to 9 and 17 to 19) no marker is green; at
    night (before 7 and after 19) no marker is red; between 10 and 16 a
    marker is red only when rounding has lifted its level to exactly 0.6. *)
Theorem mock_marker_colour_by_hour (env : TrafficMap.Env) (index : nat)
    (segment : TrafficMap.Segment) :
  0 <= TrafficMap.random env (3 * index) ->
  TrafficMap.random env (3 * index) < 1 ->
  let point := TrafficMap.mockPoint env index segment in
  let h := TrafficMap.getHours env index in
  let colour := TrafficMap.getTrafficColor (congestion_level point) in
  ((7 <= h <= 9)%Z \/ (17 <= h <= 19)%Z -> colour <> "#4CAF50") /\
  ((h < 7)%Z \/ (19 < h)%Z -> colour <> "#F44336") /\
  ((10 <= h <= 16)%Z ->
   congestion_level point <= 6 # 10 /\
   (colour = "#F44336" -> congestion_level point == 6 # 10)).
Proof.
  intros H0 H1 point h colour. subst point colour.
  rewrite mockPoint_level. fold h.
  set (c := TrafficMap.drawCongestion h _).
  unfold TrafficMap.getTrafficColor.
  split; [|split]; intros Hh.
  - assert (Hc : c = TrafficMap.random env (3 * index) * (5 # 10) + (4 # 10))
      by (apply drawCongestion_rush; exact Hh).
    destruct (hundredths_between 40 90 c) as [Hlo _].
    + change (inject_Z 40) with 40. rewrite Hc. lra.
    + change (inject_Z 90) with 90. rewrite Hc. lra.
    + set (level := inject_Z (Math_round _) / 100) in *.
      destruct (Qlt_le_dec level (3 # 10)); [exfalso; lra|].
      destruct (Qlt_le_dec level (6 # 10)); discriminate.
  - assert (Hc : c = TrafficMap.random env (3 * index) * (3 # 10) + (1 # 10))
      by (apply drawCongestion_night; exact Hh).
    destruct (hundredths_between 10 40 c) as [_ Hhi].
    + change (inject_Z 10) with 10. rewrite Hc. lra.
    + change (inject_Z 40) with 40. rewrite Hc. lra.
    + set (level := inject_Z (Math_round _) / 100) in *.
      destruct (Qlt_le_dec level (3 # 10)); [discriminate|].
      destruct (Qlt_le_dec level (6 # 10)); [discriminate|exfalso; lra].
  - assert (Hc : c = TrafficMap.random env (3 * index) * (4 # 10) + (2 # 10))
      by (apply drawCongestion_midday; exact Hh).
    destruct (hundredths_between 20 60 c) as [_ Hhi].
    + change (inject_Z 20) with 20. rewrite Hc. lra.
    + change (inject_Z 60) with 60. rewrite Hc. lra.
    + set (level := inject_Z (Math_round _) / 100) in *.
      split; [lra|].
      destruct (Qlt_le_dec level (3 # 10)); [discriminate|].
      destruct (Qlt_le_dec level (6 # 10)); [discriminate|]. intros _. lra.
Qed.

Lemma mock_marker_colour_by_hour_witness :
  0 <= TrafficMap.random Samples.steady (3 * 0) /\
  TrafficMap.random Samples.steady (3 * 0) < 1 /\
  TrafficMap.getTrafficColor
    (congestion_level
       (TrafficMap.mockPoint Samples.steady 0 (TrafficMap.mkSegment "CT_001" 0 0 "N1")))
  <> "#4CAF50".
Proof.
  assert (H0 : 0 <= TrafficMap.random Samples.steady (3 * 0)) by (simpl; lra).
  assert (H1 : TrafficMap.random Samples.steady (3 * 0) < 1) by (simpl; lra).
  split; [exact H0|]. split; [exact H1|].
  apply (mock_marker_colour_by_hour Samples.steady 0
           (TrafficMap.mkSegment "CT_001" 0 0 "N1") H0 H1).
  left. simpl. lia.
Defined.

(** X5.  For a mock point the percentage shown in the popup of its marker
    is exactly a hundred times the stored level, and it agrees with the
    colour of the marker: green exactly below 30, red exactly from 60 on. *)
Theorem mock_popup_percent (env : TrafficMap.Env) (index : nat)
    (segment : TrafficMap.Segment) :
  let point := TrafficMap.mockPoint env index segment in
  let colour := TrafficMap.getTrafficColor (congestion_level point) in
  inject_Z (TrafficMap.congestionPercent point) == congestion_level point * 100 /\
  (colour = "#4CAF50" <-> (TrafficMap.congestionPercent point < 30)%Z) /\
  (colour = "#F44336" <-> (60 <= TrafficMap.congestionPercent point)%Z).
Proof.
  intros point colour. subst point colour.
  unfold TrafficMap.congestionPercent. rewrite mockPoint_level.
  rewrite Math_round_hundredths.
  set (n := Math_round _).
  assert (E : inject_Z n / 100 * 100 == inject_Z n) by field.
  split; [now rewrite E|].
  assert (H30 : inject_Z n / 100 < 3 # 10 <-> (n < 30)%Z).
  { rewrite Zlt_Qlt. change (inject_Z 30) with 30. split; intros H; lra. }
  assert (H60 : inject_Z n / 100 < 6 # 10 <-> (n < 60)%Z).
  { rewrite Zlt_Qlt. change (inject_Z 60) with 60. split; intros H; lra. }
  unfold TrafficMap.getTrafficColor.
  destruct (Qlt_le_dec (inject_Z n / 100) (3 # 10)) as [L3|G3].
  - pose proof (proj1 H30 L3). split; split; intros H'; try discriminate; try lia.
    reflexivity.
  - assert (~ (n < 30)%Z) by (intros Hn; apply H30 in Hn; lra).
    destruct (Qlt_le_dec (inject_Z n / 100) (6 # 10)) as [L6|G6].
    + pose proof (proj1 H60 L6). split; split; intros H'; try discriminate; lia.
    + assert (~ (n < 60)%Z) by (intros Hn; apply H60 in Hn; lra).
      split; split; intros H'; try discriminate; try lia. reflexivity.
Qed.

End MockTrafficColours.

(** ** Fetching traffic data and centring the map *)

Section MapCentre.
Import Js TrafficDataContext.

Lemma tryTraffic_some fetch eps data :
  TrafficMap.tryTraffic fetch eps = Some data ->
  data <> [] /\
  exists endpoint, In endpoint eps /\ fetch endpoint = TrafficMap.Ok (Some data).
Proof.
  induction eps as [|endpoint rest IH]; [discriminate|].
  simpl. destruct (fetch endpoint) as [| |[[|point more]|]] eqn:E;
    try (intros H; destruct (IH H) as (Hne & ep & Hin & Hok);
         split; [exact Hne|exists ep; auto]).
  intros H. inversion H; subst. split; [discriminate|].
  exists endpoint. auto.
Qed.

Lemma tryTraffic_none fetch eps :
  TrafficMap.tryTraffic fetch eps = None ->
  forall endpoint point more,
    In endpoint eps -> fetch endpoint <> TrafficMap.Ok (Some (point :: more)).
Proof.
  induction eps as [|ep rest IH]; [intros _ endpoint point more []|].
  simpl. destruct (fetch ep) as [| |[[|p m]|]] eqn:E; try discriminate;
    intros H endpoint point more [<-|Hin]; try (now apply IH); congruence.
Qed.

(** The sum a [reduce] accumulates lies between the bounds of its terms. *)
Lemma fold_sum_bounds (f : TrafficData -> Q) (lo hi : Q) (l : list TrafficData) :
  (forall p, In p l -> lo <= f p /\ f p <= hi) ->
  forall acc,
    acc + inject_Z (Z.of_nat (List.length l)) * lo
    <= fold_left (fun sum point => sum + f point) l acc /\
    fold_left (fun sum point => sum + f point) l acc
    <= acc + inject_Z (Z.of_nat (List.length l)) * hi.
Proof.
  induction l as [|p l IH]; intros H acc.
  - cbn [List.length fold_left Z.of_nat]. change (inject_Z 0) with 0. split; lra.
  - assert (Hl : forall q, In q l -> lo <= f q /\ f q <= hi)
      by (intros q Hq; apply H; now right).
    destruct (H p (or_introl eq_refl)) as [Hp1 Hp2].
    destruct (IH Hl (acc + f p)) as [H1 H2].
    assert (E : inject_Z (Z.of_nat (List.length (p :: l)))
                == inject_Z (Z.of_nat (List.length l)) + 1).
    { simpl List.length. rewrite Nat2Z.inj_succ, <- Z.add_1_r, inject_Z_plus.
      reflexivity. }
    simpl fold_left. rewrite E. split; lra.
Qed.

Lemma mean_bounds (sum lo hi : Q) (n : nat) :
  (0 < n)%nat ->
  inject_Z (Z.of_nat n) * lo <= sum -> sum <= inject_Z (Z.of_nat n) * hi ->
  lo <= sum / inject_Z (Z.of_nat n) /\ sum / inject_Z (Z.of_nat n) <= hi.
Proof.
  intros Hn H1 H2.
  assert (Hpos : 0 < inject_Z (Z.of_nat n)).
  { change 0 with (inject_Z 0). rewrite <- Zlt_Qlt. lia. }
  split.
  - apply Qle_shift_div_l; [exact Hpos|lra].
  - apply Qle_shift_div_r; [exact Hpos|lra].
Qed.

Lemma updateMapCenter_in_box (trafficData : list TrafficData) (mapCenter : Q * Q) :
  trafficData <> [] ->
  (- (341 # 10) <= fst (TrafficMap.updateMapCenter trafficData mapCenter) /\
   fst (TrafficMap.updateMapCenter trafficData mapCenter) <= - (338 # 10)) /\
  (182 # 10 <= snd (TrafficMap.updateMapCenter trafficData mapCenter) /\
   snd (TrafficMap.updateMapCenter trafficData mapCenter) <= 187 # 10).
Proof.
  intros Hne. unfold TrafficMap.updateMapCenter, TrafficMap.TrafficData.
  destruct trafficData as [|p l]; [now elim Hne|].
  set (data := p :: l).
  assert (Hlen : (0 < List.length data)%nat) by (simpl; lia).
  assert (Hb : (0 <? List.length data)%nat = true) by (apply Nat.ltb_lt; exact Hlen).
  rewrite Hb.
  set (centerLat := fold_left _ data 0 / _).
  set (centerLng := fold_left _ data 0 / _).
  destruct (Qle_bool (- (341 # 10)) centerLat && Qle_bool centerLat (- (338 # 10))
            && Qle_bool (182 # 10) centerLng && Qle_bool centerLng (187 # 10))%bool
    eqn:E.
  - rewrite !andb_true_iff, !Qle_bool_iff in E. simpl. tauto.
  - simpl. repeat split; lra.
Qed.

(** X6.  The effect that centres the map leaves the centre alone when there
    is no traffic data; otherwise the centre it sets lies inside the box
    from -34.1 to -33.8 in latitude and from 18.2 to 18.7 in longitude; and
    when every point lies inside that box by a margin of 0.05 degree the
    centre is the mean of the points, the fallback to the city centre not
    being taken.  (At the very border of the box the rounding of the mean
    in double precision may decide for the fallback; the margin keeps clear
    of it.) *)
Theorem updateMapCenter_spec (trafficData : list TrafficData) (mapCenter : Q * Q) :
  let centre := TrafficMap.updateMapCenter trafficData mapCenter in
  let n := inject_Z (Z.of_nat (List.length trafficData)) in
  (trafficData = [] -> centre = mapCenter) /\
  (trafficData <> [] ->
   (- (341 # 10) <= fst centre /\ fst centre <= - (338 # 10)) /\
   (182 # 10 <= snd centre /\ snd centre <= 187 # 10)) /\
  (trafficData <> [] ->
   (forall point, In point trafficData ->
      (- (3405 # 100) <= latitude point /\ latitude point <= - (3385 # 100)) /\
      (1825 # 100 <= longitude point /\ longitude point <= 1865 # 100)) ->
   centre
   = (fold_left (fun sum point => sum + latitude point) trafficData 0 / n,
      fold_left (fun sum point => sum + longitude point) trafficData 0 / n)).
Proof.
  intros centre n. subst centre n.
  split; [intros ->; reflexivity|].
  split; [apply updateMapCenter_in_box|].
  unfold TrafficMap.updateMapCenter, TrafficMap.TrafficData.
  destruct trafficData as [|p l]; [intros H; now elim H|].
  set (data := p :: l).
  assert (Hlen : (0 < List.length data)%nat) by (simpl; lia).
  assert (Hb : (0 <? List.length data)%nat = true) by (apply Nat.ltb_lt; exact Hlen).
  rewrite Hb.
  set (centerLat := fold_left _ data 0 / _).
  set (centerLng := fold_left _ data 0 / _).
  intros _ Hbox.
  destruct (fold_sum_bounds latitude (- (3405 # 100)) (- (3385 # 100)) data
              (fun q Hq => proj1 (Hbox q Hq)) 0) as [La Lb].
  destruct (fold_sum_bounds longitude (1825 # 100) (1865 # 100) data
              (fun q Hq => proj2 (Hbox q Hq)) 0) as [Ga Gb].
  destruct (mean_bounds
              (fold_left (fun sum point => sum + latitude point) data 0)
              (- (3405 # 100)) (- (3385 # 100)) _ Hlen) as [L1 L2]; try lra.
  destruct (mean_bounds
              (fold_left (fun sum point => sum + longitude point) data 0)
              (1825 # 100) (1865 # 100) _ Hlen) as [G1 G2]; try lra.
  fold centerLat in L1, L2. fold centerLng in G1, G2.
  assert (B1 : Qle_bool (- (341 # 10)) centerLat = true)
    by (apply Qle_bool_iff; lra).
  assert (B2 : Qle_bool centerLat (- (338 # 10)) = true)
    by (apply Qle_bool_iff; lra).
  assert (B3 : Qle_bool (182 # 10) centerLng = true)
    by (apply Qle_bool_iff; lra).
  assert (B4 : Qle_bool centerLng (187 # 10) = true)
    by (apply Qle_bool_iff; lra).
  rewrite B1, B2, B3, B4. reflexivity.
Qed.

(** X7.  After [fetchTrafficData], whatever the three endpoints answer, the
    traffic data is not empty: it is the data of an endpoint that answered
    [ok] with a list that is not empty, or the mock data when no endpoint
    did; so the map is centred anew, inside the box of Cape Town. *)
Theorem fetchTrafficData_never_empty (fetch : string -> TrafficMap.TrafficResponse)
    (env : TrafficMap.Env) (mapCenter : Q * Q) :
  let data := TrafficMap.fetchTrafficData fetch env in
  let centre := TrafficMap.updateMapCenter data mapCenter in
  (0 < List.length data)%nat /\
  ((exists endpoint,
       In endpoint TrafficMap.endpoints /\ fetch endpoint = TrafficMap.Ok (Some data)) \/
   ((forall endpoint point more,
        In endpoint TrafficMap.endpoints ->
        fetch endpoint <> TrafficMap.Ok (Some (point :: more))) /\
    data = TrafficMap.generateMockTrafficData env)) /\
  (- (341 # 10) <= fst centre /\ fst centre <= - (338 # 10)) /\
  (182 # 10 <= snd centre /\ snd centre <= 187 # 10).
Proof.
  intros data centre.
  assert (Hdata : (0 < List.length data)%nat /\
    ((exists endpoint,
       In endpoint TrafficMap.endpoints /\ fetch endpoint = TrafficMap.Ok (Some data)) \/
     ((forall endpoint point more,
        In endpoint TrafficMap.endpoints ->
        fetch endpoint <> TrafficMap.Ok (Some (point :: more))) /\
      data = TrafficMap.generateMockTrafficData env))).
  { subst data. unfold TrafficMap.fetchTrafficData.
    destruct (TrafficMap.tryTraffic fetch TrafficMap.endpoints) as [l|] eqn:E.
    - destruct (tryTraffic_some _ _ _ E) as (Hne & ep & Hin & Hok).
      split; [destruct l; [now elim Hne|simpl; lia]|].
      left. exists ep. auto.
    - split; [cbn; lia|]. right. split; [|reflexivity].
      now apply tryTraffic_none. }
  destruct Hdata as [Hlen Hfrom]. split; [exact Hlen|]. split; [exact Hfrom|].
  apply (updateMapCenter_in_box data mapCenter).
  intros E. rewrite E in Hlen. simpl in Hlen. lia.
Qed.

End MapCentre.

(** ** More on the traffic-data store *)

Section StoreComposition.
Import Js TrafficDataContext Samples.

(** X8.  Of two points of the same segment folded one after the other
    only the second leaves a trace: the store is as if the first had never
    arrived. *)
Theorem updateTrafficPoint_last_wins (prev : list TrafficData)
    (first second : TrafficData) :
  road_segment_id first = road_segment_id second ->
  updateTrafficPoint second (updateTrafficPoint first prev)
  = updateTrafficPoint second prev.
Proof.
  intros Hid. induction prev as [|x t IH].
  - rewrite !updateTrafficPoint_nil, updateTrafficPoint_cons.
    now rewrite Hid, String.eqb_refl.
  - rewrite !(updateTrafficPoint_cons _ x t), Hid.
    destruct (String.eqb (road_segment_id x) (road_segment_id second)) eqn:E.
    + rewrite updateTrafficPoint_cons. now rewrite Hid, String.eqb_refl.
    + rewrite updateTrafficPoint_cons, E. now rewrite IH.
Qed.

Lemma updateTrafficPoint_last_wins_witness :
  road_segment_id calm = road_segment_id busy /\
  updateTrafficPoint busy (updateTrafficPoint calm [elsewhere])
  = updateTrafficPoint busy [elsewhere].
Proof.
  split; [reflexivity|].
  apply (updateTrafficPoint_last_wins [elsewhere] calm busy). reflexivity.
Defined.

Lemma updateTrafficPoint_swap (prev : list TrafficData) (p q : TrafficData) :
  road_segment_id p <> road_segment_id q ->
  In (road_segment_id p) (map road_segment_id prev) \/
  In (road_segment_id q) (map road_segment_id prev) ->
  updateTrafficPoint p (updateTrafficPoint q prev)
  = updateTrafficPoint q (updateTrafficPoint p prev).
Proof.
  intros Hne. induction prev as [|x t IH]; intros Hin.
  - destruct Hin as [[]|[]].
  - rewrite (updateTrafficPoint_cons q x t), (updateTrafficPoint_cons p x t).
    destruct (String.eqb_spec (road_segment_id x) (road_segment_id q)) as [Eq|Nq];
      destruct (String.eqb_spec (road_segment_id x) (road_segment_id p)) as [Ep|Np].
    + exfalso. congruence.
    + rewrite !updateTrafficPoint_cons.
      destruct (String.eqb_spec (road_segment_id q) (road_segment_id p));
        [exfalso; congruence|].
      destruct (String.eqb_spec (road_segment_id x) (road_segment_id q));
        [|contradiction].
      destruct (String.eqb_spec (road_segment_id x) (road_segment_id p));
        [contradiction|reflexivity].
    + rewrite !updateTrafficPoint_cons.
      destruct (String.eqb_spec (road_segment_id p) (road_segment_id q));
        [exfalso; congruence|].
      destruct (String.eqb_spec (road_segment_id x) (road_segment_id p));
        [|contradiction].
      destruct (String.eqb_spec (road_segment_id x) (road_segment_id q));
        [contradiction|reflexivity].
    + rewrite !updateTrafficPoint_cons.
      destruct (String.eqb_spec (road_segment_id x) (road_segment_id p));
        [contradiction|].
      destruct (String.eqb_spec (road_segment_id x) (road_segment_id q));
        [contradiction|].
      f_equal. apply IH. simpl in Hin.
      destruct Hin as [[E|H]|[E|H]]; auto; congruence.
Qed.

(** X9.  Points of two different segments may be folded in either order:
    reading any segment gives the same entry afterwards, and the two stores
    are the same list as soon as one of the segments was in the store
    before; when neither was, the two points are appended in the order they
    arrived in. *)
Theorem updateTrafficPoint_commutes (prev : list TrafficData) (p q : TrafficData) :
  road_segment_id p <> road_segment_id q ->
  (forall id,
      entryOf id (updateTrafficPoint p (updateTrafficPoint q prev))
      = entryOf id (updateTrafficPoint q (updateTrafficPoint p prev))) /\
  (In (road_segment_id p) (map road_segment_id prev) \/
   In (road_segment_id q) (map road_segment_id prev) ->
   updateTrafficPoint p (updateTrafficPoint q prev)
   = updateTrafficPoint q (updateTrafficPoint p prev)) /\
  (~ In (road_segment_id p) (map road_segment_id prev) ->
   ~ In (road_segment_id q) (map road_segment_id prev) ->
   updateTrafficPoint p (updateTrafficPoint q prev) = (prev ++ [q; p])%list /\
   updateTrafficPoint q (updateTrafficPoint p prev) = (prev ++ [p; q])%list).
Proof.
  intros Hne. split; [|split].
  - intros id.
    destruct (string_dec (road_segment_id p) id) as [<-|Np].
    + rewrite entryOf_updateTrafficPoint.
      rewrite entryOf_updateTrafficPoint_other by congruence.
      now rewrite entryOf_updateTrafficPoint.
    + rewrite (entryOf_updateTrafficPoint_other p) by exact Np.
      destruct (string_dec (road_segment_id q) id) as [<-|Nq].
      * now rewrite !entryOf_updateTrafficPoint.
      * rewrite !(entryOf_updateTrafficPoint_other q) by exact Nq.
        now rewrite (entryOf_updateTrafficPoint_other p) by exact Np.
  - now apply updateTrafficPoint_swap.
  - intros Hp Hq.
    assert (Habsent : forall (a b : TrafficData),
               road_segment_id a <> road_segment_id b ->
               ~ In (road_segment_id a) (map road_segment_id prev) ->
               ~ In (road_segment_id b) (map road_segment_id prev) ->
               updateTrafficPoint a (updateTrafficPoint b prev)
               = (prev ++ [b; a])%list).
    { intros a b Hab Ha Hb.
      rewrite (updateTrafficPoint_absent b prev).
      - rewrite updateTrafficPoint_absent; [now rewrite <- app_assoc|].
        intros old Hold E. apply in_app_or in Hold. destruct Hold as [Hold|[<-|[]]].
        + apply Ha. rewrite <- E. now apply in_map.
        + congruence.
      - intros old Hold E. apply Hb. rewrite <- E. now apply in_map. }
    split; apply Habsent; auto.
Qed.

Lemma updateTrafficPoint_commutes_witness :
  road_segment_id busy <> road_segment_id elsewhere /\
  updateTrafficPoint busy (updateTrafficPoint elsewhere [calm])
  = updateTrafficPoint elsewhere (updateTrafficPoint busy [calm]) /\
  updateTrafficPoint busy (updateTrafficPoint elsewhere []) = [elsewhere; busy].
Proof.
  assert (Hne : road_segment_id busy <> road_segment_id elsewhere) by discriminate.
  split; [exact Hne|].
  destruct (updateTrafficPoint_commutes [calm] busy elsewhere Hne) as (_ & Hswap & _).
  split; [apply Hswap; left; simpl; now left|].
  destruct (updateTrafficPoint_commutes [] busy elsewhere Hne) as (_ & _ & Happ).
  apply Happ; intros [].
Defined.

End StoreComposition.

(** ** More on the route planner *)

Section PlannerComposition.
Import Js RoutePlanner.

Lemma string_app_assoc (a b c : string) : (a ++ b) ++ c = a ++ b ++ c.
Proof. induction a as [|ch a IH]; simpl; [reflexivity|now rewrite IH]. Qed.

Lemma padStart_digit (d : Z) :
  (0 <= d <= 9)%Z -> padStart (toString d) 1 "0"%char = toString d.
Proof.
  intros H.
  assert (C : d = 0%Z \/ d = 1%Z \/ d = 2%Z \/ d = 3%Z \/ d = 4%Z \/
              d = 5%Z \/ d = 6%Z \/ d = 7%Z \/ d = 8%Z \/ d = 9%Z) by lia.
  repeat (destruct C as [->|C]; [reflexivity|]). subst. reflexivity.
Qed.

(** X10.  For a distance from 0 up to a million kilometres,
    [formatDistance] prints a distance below 1000 in whole metres, rounded,
    so that from 999.5 on it prints 1000 m; from 1000 on it prints
    kilometres with one digit after the point, the number printed being
    within 0.051 km of the distance (0.05 for the one digit kept; the rest
    is a margin for the rounding of the quotient in double precision). *)
Theorem formatDistance_spec (meters : Q) :
  0 <= meters -> meters <= 1000000000 ->
  (meters < 1000 ->
   formatDistance meters = toString (Math_round meters) ++ " m") /\
  (9995 # 10 <= meters -> meters < 1000 -> formatDistance meters = "1000 m") /\
  (1000 <= meters ->
   exists k d : Z,
     formatDistance meters = toString k ++ "." ++ toString d ++ " km" /\
     (1 <= k)%Z /\ (0 <= d <= 9)%Z /\
     Qabs (inject_Z k + inject_Z d / 10 - meters / 1000) <= 51 # 1000).
Proof.
  intros _ _. unfold formatDistance. split; [|split].
  - intros H. destruct (Qlt_le_dec meters 1000); [reflexivity|lra].
  - intros H1 H2. destruct (Qlt_le_dec meters 1000); [|lra].
    replace (Math_round meters) with 1000%Z; [reflexivity|].
    apply Z.le_antisymm.
    + apply Math_round_ge_half. change (inject_Z 1000) with 1000. lra.
    + apply Math_round_le. change (inject_Z 1000) with 1000. lra.
  - intros H. destruct (Qlt_le_dec meters 1000); [lra|].
    set (x := meters / 1000).
    assert (Hx : 1 <= x) by (apply Qle_shift_div_l; lra).
    unfold toFixed.
    destruct (Qlt_le_dec x 0) as [Hneg|_]; [lra|].
    change (10 ^ Z.of_nat 1)%Z with 10%Z.
    assert (Eabs : Qabs x * inject_Z 10 + (1 # 2) == x * 10 + (1 # 2)).
    { rewrite Qabs_pos by lra. reflexivity. }
    rewrite (Qfloor_comp _ _ Eabs).
    fold (Math_round (x * 10)). set (n := Math_round (x * 10)).
    assert (Hn : (10 <= n)%Z).
    { apply Math_round_ge. change (inject_Z 10) with 10. lra. }
    pose proof (Z.mod_pos_bound n 10 eq_refl) as Hd.
    exists (n / 10)%Z, (n mod 10)%Z.
    split; [|split; [|split]].
    + rewrite padStart_digit by lia. cbn [append]. now rewrite !string_app_assoc.
    + apply Z.div_le_lower_bound; lia.
    + lia.
    + destruct (Math_round_nearest (x * 10)) as [N1 N2]. fold n in N1, N2.
      assert (En : inject_Z n == 10 * inject_Z (n / 10) + inject_Z (n mod 10)).
      { rewrite (Z.div_mod n 10) at 1 by lia.
        rewrite inject_Z_plus, inject_Z_mult. reflexivity. }
      apply Qle_trans with (1 # 20); [|lra].
      apply Qabs_Qle_condition.
      set (k := inject_Z (n / 10)) in *. set (d := inject_Z (n mod 10)) in *.
      assert (Ed : d / 10 * 10 == d) by field.
      split; apply Qmult_le_r with 10; try lra.
Qed.

Lemma formatDistance_spec_witness :
  0 <= 9996 # 10 /\ 9996 # 10 <= 1000000000 /\
  formatDistance (9996 # 10) = "1000 m".
Proof.
  assert (H0 : 0 <= 9996 # 10) by lra.
  assert (H1 : 9996 # 10 <= 1000000000) by lra.
  split; [exact H0|]. split; [exact H1|].
  apply (formatDistance_spec (9996 # 10) H0 H1); lra.
Defined.

(** X11.  Choosing a popular route that carries both of its locations and
    planning then: the request is made for the coordinates of these two
    locations, the planner never asks to select both ends, and when no
    endpoint answers [ok] the popular route stays as the route shown. *)
Theorem selectPopularRoute_then_planRoute
    (fetch : string -> RouteRequest -> FetchOutcome) (route : RouteResult)
    (st : PlannerState) (start finish : Location) :
  start_location route = Some start ->
  end_location route = Some finish ->
  let body := {| origin_lat := location_lat start;
                 origin_lng := location_lng start;
                 destination_lat := location_lat finish;
                 destination_lng := location_lng finish;
                 optimize_for := "time"; avoid_tolls := false |} in
  let planned := planRoute fetch (selectPopularRoute route st) in
  routeResult planned
  = match tryEndpoints fetch body endpoints with
    | Some data => Some data
    | None => Some route
    end /\
  (error planned = None \/
   error planned = Some "Route optimization service temporarily unavailable") /\
  (error planned = None <-> tryEndpoints fetch body endpoints <> None).
Proof.
  intros Hs Hf body planned. subst planned.
  unfold selectPopularRoute. rewrite Hs, Hf. unfold planRoute.
  cbn [origin destination routeResult lat lng].
  fold body. destruct (tryEndpoints fetch body endpoints) as [data|];
    cbn [routeResult error].
  - split; [reflexivity|]. split; [now left|]. split; [discriminate|reflexivity].
  - split; [reflexivity|]. split; [now right|].
    split; [discriminate|intros H; now elim H].
Qed.

Lemma selectPopularRoute_then_planRoute_witness :
  start_location Samples.airportRun
  = Some (mkLocation "Cape Town International Airport"
            (- (339685 # 10000)) (186017 # 10000)) /\
  routeResult
    (planRoute Samples.refusing (selectPopularRoute Samples.airportRun Samples.blank))
  = Some Samples.airportRun.
Proof.
  split; [reflexivity|].
  exact (proj1 (selectPopularRoute_then_planRoute Samples.refusing
                  Samples.airportRun Samples.blank _ _ eq_refl eq_refl)).
Defined.

Lemma tryDestinations_some fetch eps result :
  tryDestinations fetch eps = Some result ->
  exists endpoint,
    In endpoint eps /\ fetch endpoint = DestinationsOk "success" (Some result).
Proof.
  induction eps as [|endpoint rest IH]; [discriminate|].
  simpl. destruct (fetch endpoint) as [| |status [l|]] eqn:E;
    try (intros H; destruct (IH H) as (ep & Hin & Hok); exists ep; now auto).
  destruct (String.eqb_spec status "success") as [->|_].
  - intros H. inversion H; subst. exists endpoint. auto.
  - intros H. destruct (IH H) as (ep & Hin & Hok). exists ep. auto.
Qed.

Lemma tryDestinations_none fetch eps :
  tryDestinations fetch eps = None ->
  forall endpoint l,
    In endpoint eps -> fetch endpoint <> DestinationsOk "success" (Some l).
Proof.
  induction eps as [|ep rest IH]; [intros _ endpoint l []|].
  simpl. destruct (fetch ep) as [| |status [l'|]] eqn:E;
    try (intros H endpoint l [<-|Hin]; [congruence|now apply IH]).
  destruct (String.eqb_spec status "success") as [->|Hs]; [discriminate|].
  intros H endpoint l [<-|Hin]; [congruence|now apply IH].
Qed.

(** X12.  [fetchDestinations] always ends with a list of destinations: the
    one of an endpoint that answered [ok] with the status success, or the
    eight fallback destinations when no endpoint did (an [ok] answer with
    another status counts for nothing); the list is empty only when an
    endpoint sent an empty one. *)
Theorem fetchDestinations_spec (fetch : string -> DestinationsResponse) :
  let result := fetchDestinations fetch in
  ((exists endpoint,
       In endpoint destinationEndpoints /\
       fetch endpoint = DestinationsOk "success" (Some result)) \/
   ((forall endpoint l,
        In endpoint destinationEndpoints ->
        fetch endpoint <> DestinationsOk "success" (Some l)) /\
    result = fallbackDestinations /\ List.length result = 8%nat)) /\
  (result = [] ->
   exists endpoint,
     In endpoint destinationEndpoints /\
     fetch endpoint = DestinationsOk "success" (Some [])).
Proof.
  intros result. subst result. unfold fetchDestinations.
  destruct (tryDestinations fetch destinationEndpoints) as [l|] eqn:E.
  - pose proof (tryDestinations_some _ _ _ E) as H.
    split; [now left|]. intros ->. exact H.
  - split; [|discriminate].
    right. split; [now apply tryDestinations_none|]. split; reflexivity.
Qed.

End PlannerComposition.

(** ** Live sensors, predictions and rush hours *)

Section LiveAndPredicted.
Import Js.

(** X13.  The live list of sensors never shows a segment in a worse colour
    than the map does: the two agree below 0.3, between 0.4 and 0.6 and
    above 0.7; from 0.3 to 0.4 the list is green where the map is orange,
    from 0.6 to 0.7 the list is orange where the map is red. *)
Theorem live_status_and_map_colour (congestion : Q) :
  let live := RealTimeData.getStatusColor (RealTimeData.statusOf congestion) in
  let map := TrafficMap.getTrafficColor congestion in
  (congestion < 3 # 10 \/ (4 # 10 < congestion /\ congestion < 6 # 10) \/
   7 # 10 < congestion -> live = map) /\
  (3 # 10 <= congestion -> congestion <= 4 # 10 ->
   live = "#4CAF50" /\ map = "#FF9800") /\
  (6 # 10 <= congestion -> congestion <= 7 # 10 ->
   live = "#FF9800" /\ map = "#F44336") /\
  (live = "#F44336" -> map = "#F44336") /\
  (map = "#4CAF50" -> live = "#4CAF50").
Proof.
  intros live map. subst live map.
  unfold RealTimeData.statusOf, TrafficMap.getTrafficColor.
  destruct (Qlt_le_dec (7 # 10) congestion);
    destruct (Qlt_le_dec (4 # 10) congestion);
    destruct (Qlt_le_dec congestion (3 # 10));
    destruct (Qlt_le_dec congestion (6 # 10));
    cbn [RealTimeData.getStatusColor];
    repeat split; intros; try reflexivity; try discriminate; exfalso; lra.
Qed.

Lemma predictedCongestion_cases (current change : Q) :
  (current + change <= 1 # 10 ->
   PredictionDashboard.predictedCongestion current change == 1 # 10) /\
  (9 # 10 <= current + change ->
   PredictionDashboard.predictedCongestion current change == 9 # 10) /\
  (1 # 10 <= current + change -> current + change <= 9 # 10 ->
   PredictionDashboard.predictedCongestion current change == current + change).
Proof.
  unfold PredictionDashboard.predictedCongestion, Math_max, Math_min.
  destruct (Qlt_le_dec (current + change) (9 # 10));
    destruct (Qlt_le_dec (1 # 10) _); repeat split; intros; lra.
Qed.

Lemma trendOf_cases (change : Q) :
  (PredictionDashboard.trendOf change = "increasing" /\ 1 # 10 < change) \/
  (PredictionDashboard.trendOf change = "decreasing" /\ change < - (1 # 10)) \/
  (PredictionDashboard.trendOf change = "stable" /\
   - (1 # 10) <= change /\ change <= 1 # 10).
Proof.
  unfold PredictionDashboard.trendOf.
  destruct (Qlt_le_dec (1 # 10) change); [now left|].
  destruct (Qlt_le_dec change (- (1 # 10))); [right; now left|].
  right; right. auto.
Qed.

(** X14.  With draws between 0 and 1 (1 excluded), the trend shown for a
    road agrees with its two percentages: when the trend is increasing the
    predicted congestion is above the current one, when it is stable the
    two differ by little (at most 0.1; stated as 0.11, a margin for the
    rounding of the sum in double precision), and when it is decreasing the
    predicted congestion is not above the current one, being equal to it
    only for a road already at the floor of 0.1. *)
Theorem prediction_trend_consistent (random : nat -> Q) (clock : nat -> string)
    (index : nat) (road : string * string) :
  (0 <= random (3 * index)%nat /\ random (3 * index)%nat < 1) ->
  (0 <= random (3 * index + 1)%nat /\ random (3 * index + 1)%nat < 1) ->
  let p := PredictionDashboard.predict random clock index road in
  let current := PredictionDashboard.current_congestion p in
  let predicted := PredictionDashboard.predicted_congestion p in
  (1 # 10 <= current /\ current < 9 # 10) /\
  (PredictionDashboard.trend p = "increasing" -> current < predicted) /\
  (PredictionDashboard.trend p = "stable" ->
   Qabs (predicted - current) <= 11 # 100) /\
  (PredictionDashboard.trend p = "decreasing" ->
   predicted <= current /\ (predicted == current -> current == 1 # 10)).
Proof.
  intros [Ha0 Ha1] [Hb0 Hb1] p current predicted.
  subst p current predicted. unfold PredictionDashboard.predict.
  cbn [PredictionDashboard.current_congestion PredictionDashboard.predicted_congestion
       PredictionDashboard.trend].
  set (current := random (3 * index)%nat * (8 # 10) + (1 # 10)).
  set (change := (random (3 * index + 1)%nat - (5 # 10)) * (4 # 10)).
  assert (Hc : 1 # 10 <= current /\ current < 9 # 10) by (subst current; split; lra).
  destruct (predictedCongestion_cases current change) as (Hfloor & Hcap & Hmid).
  set (predicted := PredictionDashboard.predictedCongestion current change) in *.
  split; [exact Hc|].
  destruct (trendOf_cases change) as [[E H]|[[E H]|[E H]]]; rewrite E;
    (split; [|split]); intros T; try discriminate T.
  - destruct (Qlt_le_dec (current + change) (9 # 10)).
    + rewrite Hmid; lra.
    + rewrite Hcap; lra.
  - destruct (Qlt_le_dec (current + change) (1 # 10)).
    + rewrite Hfloor by lra. split; [lra|]. intros Heq. lra.
    + rewrite Hmid by lra. split; [lra|]. intros Heq. lra.
  - apply Qle_trans with (1 # 10); [|lra].
    apply Qabs_Qle_condition.
    destruct (Qlt_le_dec (current + change) (1 # 10)).
    + rewrite Hfloor by lra. split; lra.
    + destruct (Qlt_le_dec (current + change) (9 # 10)).
      * rewrite Hmid by lra. split; lra.
      * rewrite Hcap by lra. split; lra.
Qed.

Lemma prediction_trend_consistent_witness :
  let p := PredictionDashboard.predict (TrafficMap.random Samples.steady)
             (TrafficMap.toISOString Samples.steady) 0
             ("CT_001", "N1 Highway (Bellville)") in
  PredictionDashboard.trend p = "stable" /\
  Qabs (PredictionDashboard.predicted_congestion p
        - PredictionDashboard.current_congestion p) <= 11 # 100.
Proof.
  assert (H : 0 <= 1 # 2 /\ 1 # 2 < 1) by (split; lra).
  split; [reflexivity|].
  apply (prediction_trend_consistent (TrafficMap.random Samples.steady)
           (TrafficMap.toISOString Samples.steady) 0
           ("CT_001", "N1 Highway (Bellville)") H H).
  reflexivity.
Defined.

End LiveAndPredicted.

Section AlertsAndForecast.
Import Js.

Lemma In_predictFrom random clock roads :
  forall index p,
    In p (PredictionDashboard.predictFrom random clock index roads) ->
    exists k road, p = PredictionDashboard.predict random clock k road.
Proof.
  induction roads as [|road rest IH]; intros index p; [intros []|].
  simpl. intros [<-|H]; [now exists index, road|]. now apply IH in H.
Qed.

Lemma riskLevelOf_high (predicted : Q) :
  PredictionDashboard.riskLevelOf predicted = "high" <-> 7 # 10 < predicted.
Proof.
  unfold PredictionDashboard.riskLevelOf.
  destruct (Qlt_le_dec (7 # 10) predicted); [tauto|].
  destruct (Qlt_le_dec (4 # 10) predicted); split; intros H;
    try discriminate; exfalso; lra.
Qed.

(** X15.  The alert of the prediction page lists exactly the predicted
    roads whose predicted congestion is above 0.7; for each of them the
    chip of the predicted congestion and the chip of the risk level are
    both red, and the predicted congestion is at most 0.9. *)
Theorem highRiskRoads_spec (random : nat -> Q) (clock : nat -> string)
    (p : PredictionDashboard.TrafficPrediction) :
  let predictions := PredictionDashboard.mockPredictions random clock in
  (In p (PredictionDashboard.highRiskRoads predictions) <->
   In p predictions /\ 7 # 10 < PredictionDashboard.predicted_congestion p) /\
  (In p (PredictionDashboard.highRiskRoads predictions) ->
   PredictionDashboard.predicted_congestion p <= 9 # 10 /\
   PredictionDashboard.getCongestionColor (PredictionDashboard.predicted_congestion p)
   = "#F44336" /\
   PredictionDashboard.getRiskColor (PredictionDashboard.risk_level p) = "#F44336").
Proof.
  intros predictions. subst predictions.
  unfold PredictionDashboard.highRiskRoads, PredictionDashboard.mockPredictions.
  assert (Hrisk : forall q,
             In q (PredictionDashboard.predictFrom random clock 0
                     PredictionDashboard.capeRoads) ->
             PredictionDashboard.risk_level q
             = PredictionDashboard.riskLevelOf
                 (PredictionDashboard.predicted_congestion q) /\
             PredictionDashboard.predicted_congestion q <= 9 # 10).
  { intros q Hq. destruct (In_predictFrom _ _ _ _ _ Hq) as (k & road & ->).
    split; [reflexivity|].
    unfold PredictionDashboard.predict.
    cbn [PredictionDashboard.predicted_congestion].
    unfold PredictionDashboard.predictedCongestion.
    destruct (Math_max_spec (1 # 10)
                (Math_min (9 # 10)
                   (random (3 * k)%nat * (8 # 10) + (1 # 10)
                    + (random (3 * k + 1)%nat - (5 # 10)) * (4 # 10))))
      as (_ & _ & [E|E]); rewrite E; [lra|].
    apply Math_min_spec. }
  assert (Hiff : In p (filter
                         (fun q => String.eqb (PredictionDashboard.risk_level q) "high")
                         (PredictionDashboard.predictFrom random clock 0
                            PredictionDashboard.capeRoads)) <->
                 In p (PredictionDashboard.predictFrom random clock 0
                         PredictionDashboard.capeRoads) /\
                 7 # 10 < PredictionDashboard.predicted_congestion p).
  { rewrite filter_In, String.eqb_eq. split; intros [Hin H]; split; auto.
    - apply riskLevelOf_high. now rewrite <- (proj1 (Hrisk p Hin)).
    - rewrite (proj1 (Hrisk p Hin)). now apply riskLevelOf_high. }
  split; [exact Hiff|].
  intros H. apply Hiff in H. destruct H as [Hin Hhigh].
  destruct (Hrisk p Hin) as [Er Hle].
  split; [exact Hle|]. split.
  - unfold PredictionDashboard.getCongestionColor.
    destruct (Qlt_le_dec _ (3 # 10)); [exfalso; lra|].
    destruct (Qlt_le_dec _ (6 # 10)); [exfalso; lra|reflexivity].
  - rewrite Er, (proj2 (riskLevelOf_high _) Hhigh). reflexivity.
Qed.

Lemma isRushTime_true (hourNum : Z) :
  PredictionDashboard.isRushTime hourNum = true <->
  (7 <= hourNum <= 9)%Z \/ (17 <= hourNum <= 19)%Z.
Proof.
  unfold PredictionDashboard.isRushTime.
  rewrite orb_true_iff, !andb_true_iff, !Z.leb_le. tauto.
Qed.

(** X16.  With draws between 0 and 1 (1 excluded), the forecast of an hour
    in the rush (7 to 9, 17 to 19) has a red bar and a speed from 25 to 40;
    the forecast of any other hour has a bar that is not red and a speed
    from 40 to 60: no rush hour is forecast faster than another hour.  (In
    exact arithmetic 40 and 60 are not reached; in double precision the
    largest draw reaches them.) *)
Theorem forecast_by_hour (hourNum : Z) (label : string) (r1 r2 r3 : Q) :
  0 <= r1 -> r1 < 1 -> 0 <= r2 -> r2 < 1 ->
  let f := PredictionDashboard.forecast hourNum label r1 r2 r3 in
  let bar :=
    PredictionDashboard.getCongestionColor
      (PredictionDashboard.hourly_congestion_level f) in
  ((7 <= hourNum <= 9)%Z \/ (17 <= hourNum <= 19)%Z ->
   bar = "#F44336" /\
   25 <= PredictionDashboard.avg_speed f /\ PredictionDashboard.avg_speed f <= 40) /\
  (~ ((7 <= hourNum <= 9)%Z \/ (17 <= hourNum <= 19)%Z) ->
   bar <> "#F44336" /\
   40 <= PredictionDashboard.avg_speed f /\ PredictionDashboard.avg_speed f <= 60).
Proof.
  intros H10 H11 H20 H21 f bar. subst f bar.
  unfold PredictionDashboard.forecast, PredictionDashboard.getCongestionColor.
  cbn [PredictionDashboard.hourly_congestion_level PredictionDashboard.avg_speed].
  split; intros Hh.
  - rewrite (proj2 (isRushTime_true hourNum) Hh).
    destruct (Qlt_le_dec _ (3 # 10)); [exfalso; lra|].
    destruct (Qlt_le_dec _ (6 # 10)); [exfalso; lra|].
    repeat split; lra.
  - destruct (PredictionDashboard.isRushTime hourNum) eqn:E;
      [exfalso; apply Hh; now apply isRushTime_true|].
    destruct (Qlt_le_dec _ (3 # 10)); [repeat split; try discriminate; lra|].
    destruct (Qlt_le_dec _ (6 # 10)); [repeat split; try discriminate; lra|].
    exfalso; lra.
Qed.

Lemma forecast_by_hour_witness :
  0 <= 1 # 2 /\ 1 # 2 < 1 /\
  PredictionDashboard.getCongestionColor
    (PredictionDashboard.hourly_congestion_level
       (PredictionDashboard.forecast 8 "08:00" (1 # 2) (1 # 2) (1 # 2)))
  = "#F44336".
Proof.
  assert (H0 : 0 <= 1 # 2) by lra. assert (H1 : 1 # 2 < 1) by lra.
  split; [exact H0|]. split; [exact H1|].
  apply (forecast_by_hour 8 "08:00" (1 # 2) (1 # 2) (1 # 2) H0 H1 H0 H1).
  left. lia.
Defined.

(** X17.  The text under Current Conditions, the rush-hour figures of the
    analytics page, the hourly forecast and the mock data of the map go by
    the same hours: the text reads normal traffic exactly when [isRushHour]
    is false, [isRushHour] and the forecast's test agree, and a mock point
    of the map made with a draw between 0 and 1 (1 excluded) has a stored
    congestion level of at least 0.4 in those hours and of at most 0.6 in
    all others. *)
Theorem rush_hours_agree (hours : Z) :
  (TrafficAnalytics.currentConditions hours = "Normal traffic conditions" <->
   TrafficAnalytics.isRushHour hours = false) /\
  TrafficAnalytics.isRushHour hours = PredictionDashboard.isRushTime hours /\
  (forall env index segment,
     TrafficMap.getHours env index = hours ->
     0 <= TrafficMap.random env (3 * index) ->
     TrafficMap.random env (3 * index) < 1 ->
     let level :=
       TrafficDataContext.congestion_level
         (TrafficMap.mockPoint env index segment) in
     (TrafficAnalytics.isRushHour hours = true -> 4 # 10 <= level) /\
     (TrafficAnalytics.isRushHour hours = false -> level <= 6 # 10)).
Proof.
  split; [|split].
  - unfold TrafficAnalytics.currentConditions, TrafficAnalytics.isRushHour.
    destruct ((7 <=? hours)%Z && (hours <=? 9)%Z)%bool;
      destruct ((17 <=? hours)%Z && (hours <=? 19)%Z)%bool; cbn [orb];
      split; intros H; try reflexivity; discriminate H.
  - reflexivity.
  - intros env index segment Hh H0 H1 level. subst level.
    rewrite mockPoint_level, Hh.
    set (r := TrafficMap.random env (3 * index)) in *.
    unfold TrafficAnalytics.isRushHour, TrafficMap.drawCongestion.
    destruct ((7 <=? hours)%Z && (hours <=? 9)%Z
              || (17 <=? hours)%Z && (hours <=? 19)%Z)%bool.
    + split; [intros _|discriminate].
      destruct (hundredths_between 40 90 (r * (5 # 10) + (4 # 10))) as [Hlo _].
      * change (inject_Z 40) with 40. lra.
      * change (inject_Z 90) with 90. lra.
      * set (level := inject_Z (Math_round _) / 100) in *. lra.
    + split; [discriminate|intros _].
      destruct ((10 <=? hours)%Z && (hours <=? 16)%Z)%bool.
      * destruct (hundredths_between 20 60 (r * (4 # 10) + (2 # 10))) as [_ Hhi].
        -- change (inject_Z 20) with 20. lra.
        -- change (inject_Z 60) with 60. lra.
        -- set (level := inject_Z (Math_round _) / 100) in *. lra.
      * destruct (hundredths_between 10 40 (r * (3 # 10) + (1 # 10))) as [_ Hhi].
        -- change (inject_Z 10) with 10. lra.
        -- change (inject_Z 40) with 40. lra.
        -- set (level := inject_Z (Math_round _) / 100) in *. lra.
Qed.

End AlertsAndForecast.

Section SegmentIdentifiers.
Import Js.

Lemma to_uint_normal (p : positive) : Decimal.unorm (Pos.to_uint p) = Pos.to_uint p.
Proof.
  rewrite <- DecimalPos.Unsigned.to_of, DecimalPos.Unsigned.of_to. reflexivity.
Qed.

Lemma to_uint_no_leading_zero (p : positive) (d : Decimal.uint) :
  Pos.to_uint p = Decimal.D0 d -> False.
Proof.
  intros E. pose proof (to_uint_normal p) as H. rewrite E in H.
  destruct d as [| d | d | d | d | d | d | d | d | d | d ];
    try (apply (DecimalPos.Unsigned.to_uint_nonzero p); exact E);
    rewrite DecimalFacts.unorm_D0 in H;
    match type of H with
    | Decimal.unorm ?u = _ =>
        assert (Hu : u <> Decimal.Nil) by discriminate;
        pose proof (DecimalFacts.nb_digits_unorm u Hu) as Hn;
        rewrite H in Hn; simpl in Hn; lia
    end.
Qed.

Lemma string_of_uint_head (d : Decimal.uint) :
  d <> Decimal.Nil -> (forall d', d <> Decimal.D0 d') ->
  exists c rest, NilEmpty.string_of_uint d = String c rest /\ c <> "0"%char.
Proof.
  intros Hnil Hzero.
  destruct d; simpl;
    try (eexists; eexists; split; [reflexivity|discriminate]).
  - now contradiction Hnil.
  - now contradiction (Hzero d).
Qed.

Lemma toString_pos_head (p : positive) :
  exists c rest, toString (Z.pos p) = String c rest /\ c <> "0"%char.
Proof.
  unfold toString. cbn [Z.to_int NilZero.string_of_int].
  assert (Hnil : Pos.to_uint p <> Decimal.Nil)
    by apply DecimalPos.Unsigned.to_uint_nonnil.
  assert (Hzero : forall d', Pos.to_uint p <> Decimal.D0 d')
    by (intros d' E; exact (to_uint_no_leading_zero p d' E)).
  destruct (string_of_uint_head _ Hnil Hzero) as (c & rest & E & Hc).
  exists c, rest. split; [|exact Hc].
  unfold NilZero.string_of_uint.
  destruct (Pos.to_uint p); [now contradiction Hnil|exact E..].
Qed.

Lemma toString_pos_inj (p q : positive) :
  toString (Z.pos p) = toString (Z.pos q) -> p = q.
Proof.
  unfold toString. cbn [Z.to_int NilZero.string_of_int]. intros E.
  apply DecimalPos.Unsigned.to_uint_inj.
  assert (Hs : forall r, NilZero.string_of_uint (Pos.to_uint r)
                         = NilEmpty.string_of_uint (Pos.to_uint r)).
  { intros r. unfold NilZero.string_of_uint.
    pose proof (DecimalPos.Unsigned.to_uint_nonnil r) as Hr.
    destruct (Pos.to_uint r); [now contradiction Hr|reflexivity..]. }
  rewrite !Hs in E.
  assert (Some (Pos.to_uint p) = Some (Pos.to_uint q)) as [= ->];
    [|reflexivity].
  rewrite <- (NilEmpty.usu (Pos.to_uint p)), <- (NilEmpty.usu (Pos.to_uint q)).
  now rewrite E.
Qed.

Lemma repeat_char_head_inj (a b : nat) (c c' : ascii) (s t : string) :
  c <> "0"%char -> c' <> "0"%char ->
  (repeat_char "0" a ++ String c s)%string
  = (repeat_char "0" b ++ String c' t)%string ->
  String c s = String c' t.
Proof.
  intros Hc Hc'. revert b.
  induction a as [|a IH]; intros [|b]; cbn [repeat_char append]; intros E.
  - exact E.
  - injection E as E _. now contradiction Hc.
  - injection E as E _. now contradiction Hc'.
  - injection E as E. now apply (IH b).
Qed.

Lemma padStart_toString_inj (n : nat) (p q : positive) :
  padStart (toString (Z.pos p)) n "0" = padStart (toString (Z.pos q)) n "0" ->
  p = q.
Proof.
  unfold padStart. intros E. apply toString_pos_inj.
  destruct (toString_pos_head p) as (c & s & Ep & Hc).
  destruct (toString_pos_head q) as (c' & t & Eq & Hc').
  rewrite Ep, Eq in E |- *.
  exact (repeat_char_head_inj _ _ c c' s t Hc Hc' E).
Qed.

Lemma segmentId_inj (i j : nat) :
  RealTimeData.segmentId i = RealTimeData.segmentId j -> i = j.
Proof.
  unfold RealTimeData.segmentId. intros E.
  cbn [append] in E. injection E as E.
  assert (Hs : forall k, (Z.of_nat k + 1)%Z = Z.pos (Pos.of_succ_nat k))
    by (intros k; lia).
  rewrite !Hs in E. apply padStart_toString_inj in E. lia.
Qed.

Lemma liveFrom_ids random clock roads :
  forall index id,
    In id (map RealTimeData.road_segment_id
             (RealTimeData.liveFrom random clock index roads)) ->
    exists k, (index <= k)%nat /\ id = RealTimeData.segmentId k.
Proof.
  induction roads as [|road rest IH]; intros index id; [intros []|].
  cbn [RealTimeData.liveFrom map RealTimeData.liveEntry
       RealTimeData.road_segment_id].
  intros [<-|H]; [exists index; split; [lia|reflexivity]|].
  destruct (IH _ _ H) as (k & Hk & ->). exists k. split; [lia|reflexivity].
Qed.

(** X18.  The identifiers that the live list builds from the position of a
    road (CT_ and the position padded to three digits) tell the roads
    apart: two positions never get the same identifier, whatever the list
    of roads the entries of the live list carry pairwise distinct
    identifiers, and for the eight roads of the page they are the
    identifiers and names of the prediction page, in the same order. *)
Theorem live_identifiers (random : nat -> Q) (clock : nat -> string) :
  (forall i j, RealTimeData.segmentId i = RealTimeData.segmentId j -> i = j) /\
  (forall index roads,
     NoDup (map RealTimeData.road_segment_id
              (RealTimeData.liveFrom random clock index roads))) /\
  map (fun d => (RealTimeData.road_segment_id d, RealTimeData.road_name d))
    (RealTimeData.newLiveData random clock)
  = PredictionDashboard.capeRoads.
Proof.
  split; [exact segmentId_inj|]. split; [|reflexivity].
  intros index roads. revert index.
  induction roads as [|road rest IH]; intros index; [constructor|].
  cbn [RealTimeData.liveFrom map RealTimeData.liveEntry
       RealTimeData.road_segment_id].
  constructor; [|apply IH].
  intros Hin. destruct (liveFrom_ids _ _ _ _ _ Hin) as (k & Hk & E).
  apply segmentId_inj in E. lia.
Qed.

End SegmentIdentifiers.

Section PercentageChips.
Import Js.

Lemma toFixed_0_round (x : Q) :
  0 <= x -> toFixed x 0 = toString (Math_round x).
Proof.
  intros H. unfold toFixed, Math_round.
  destruct (Qlt_le_dec x 0) as [Hneg|_]; [exfalso; lra|].
  cbn [append]. f_equal. apply Qfloor_comp.
  rewrite (Qabs_pos x H). change (inject_Z (10 ^ Z.of_nat 0)) with 1. ring.
Qed.

Lemma percentLabel_between (a b : Z) (x : Q) :
  0 <= x -> inject_Z a <= x * 100 -> x * 100 <= inject_Z b ->
  exists n : Z,
    PredictionDashboard.percentLabel x = toString n ++ "%" /\ (a <= n <= b)%Z.
Proof.
  intros H0 Ha Hb. exists (Math_round (x * 100)). split.
  - unfold PredictionDashboard.percentLabel.
    rewrite toFixed_0_round by lra. reflexivity.
  - split; [apply Math_round_ge; exact Ha|apply Math_round_le; lra].
Qed.

(** X19.  With draws between 0 and 1 (1 excluded), the three percentages
    printed for a predicted road are whole numbers in fixed ranges: the
    current and the predicted congestion between 10 and 90, the confidence
    between 70 and 100. *)
Theorem prediction_percentages (random : nat -> Q) (clock : nat -> string)
    (index : nat) (road : string * string) :
  (forall k, 0 <= random k /\ random k < 1) ->
  let p := PredictionDashboard.predict random clock index road in
  exists current predicted confidence : Z,
    PredictionDashboard.percentLabel (PredictionDashboard.current_congestion p)
    = toString current ++ "%" /\
    PredictionDashboard.percentLabel (PredictionDashboard.predicted_congestion p)
    = toString predicted ++ "%" /\
    PredictionDashboard.percentLabel (PredictionDashboard.confidence p)
    = toString confidence ++ "%" /\
    (10 <= current <= 90)%Z /\ (10 <= predicted <= 90)%Z /\
    (70 <= confidence <= 100)%Z.
Proof.
  intros Hr p. subst p. unfold PredictionDashboard.predict.
  cbn [PredictionDashboard.current_congestion PredictionDashboard.predicted_congestion
       PredictionDashboard.confidence].
  destruct (Hr (3 * index)%nat) as [Ha0 Ha1].
  destruct (Hr (3 * index + 2)%nat) as [Hc0 Hc1].
  set (current := random (3 * index)%nat * (8 # 10) + (1 # 10)).
  set (change := (random (3 * index + 1)%nat - (5 # 10)) * (4 # 10)).
  assert (Hp : 1 # 10 <= PredictionDashboard.predictedCongestion current change
               /\ PredictionDashboard.predictedCongestion current change <= 9 # 10).
  { unfold PredictionDashboard.predictedCongestion, Math_max, Math_min.
    destruct (Qlt_le_dec (current + change) (9 # 10));
      destruct (Qlt_le_dec (1 # 10) _); split; lra. }
  set (predicted := PredictionDashboard.predictedCongestion current change) in *.
  destruct (percentLabel_between 10 90 current) as (c & Ec & Hc);
    [subst current; unfold inject_Z; lra..|].
  destruct (percentLabel_between 10 90 predicted) as (q & Eq & Hq);
    [unfold inject_Z; lra..|].
  destruct (percentLabel_between 70 100
              (random (3 * index + 2)%nat * (3 # 10) + (7 # 10)))
    as (f & Ef & Hf); [unfold inject_Z; lra..|].
  exists c, q, f. repeat split; try assumption; lia.
Qed.

Lemma prediction_percentages_witness :
  exists current predicted confidence : Z,
    PredictionDashboard.percentLabel
      (PredictionDashboard.current_congestion
         (PredictionDashboard.predict (TrafficMap.random Samples.steady)
            (TrafficMap.toISOString Samples.steady) 0
            ("CT_001", "N1 Highway (Bellville)")))
    = toString current ++ "%" /\
    PredictionDashboard.percentLabel
      (PredictionDashboard.predicted_congestion
         (PredictionDashboard.predict (TrafficMap.random Samples.steady)
            (TrafficMap.toISOString Samples.steady) 0
            ("CT_001", "N1 Highway (Bellville)")))
    = toString predicted ++ "%" /\
    PredictionDashboard.percentLabel
      (PredictionDashboard.confidence
         (PredictionDashboard.predict (TrafficMap.random Samples.steady)
            (TrafficMap.toISOString Samples.steady) 0
            ("CT_001", "N1 Highway (Bellville)")))
    = toString confidence ++ "%" /\
    (10 <= current <= 90)%Z /\ (10 <= predicted <= 90)%Z /\
    (70 <= confidence <= 100)%Z.
Proof.
  apply (prediction_percentages (TrafficMap.random Samples.steady)
           (TrafficMap.toISOString Samples.steady) 0
           ("CT_001", "N1 Highway (Bellville)")).
  intros k. simpl. split; lra.
Defined.

End PercentageChips.

(** ** What the mock data is made of *)

Section MockInputs.
Import Js.

Lemma mockFrom_reads (env1 env2 : TrafficMap.Env) (segments : list TrafficMap.Segment) :
  forall index,
    (forall i, (index <= i < index + List.length segments)%nat ->
       TrafficMap.random env1 (3 * i) = TrafficMap.random env2 (3 * i) /\
       TrafficMap.random env1 (3 * i + 1) = TrafficMap.random env2 (3 * i + 1) /\
       TrafficMap.random env1 (3 * i + 2) = TrafficMap.random env2 (3 * i + 2) /\
       TrafficMap.getHours env1 i = TrafficMap.getHours env2 i /\
       TrafficMap.toISOString env1 i = TrafficMap.toISOString env2 i) ->
    TrafficMap.mockFrom env1 index segments = TrafficMap.mockFrom env2 index segments.
Proof.
  induction segments as [|segment rest IH]; intros index H; [reflexivity|].
  cbn [TrafficMap.mockFrom]. f_equal.
  - destruct (H index) as (E0 & E1 & E2 & Eh & Et); [cbn [List.length]; lia|].
    unfold TrafficMap.mockPoint. now rewrite E0, E1, E2, Eh, Et.
  - apply IH. intros i Hi. apply H. cbn [List.length]. lia.
Qed.

Lemma liveFrom_reads (r1 r2 : nat -> Q) (c1 c2 : nat -> string) (roads : list string) :
  forall index,
    (forall i, (index <= i < index + List.length roads)%nat ->
       r1 (2 * i)%nat = r2 (2 * i)%nat /\ r1 (2 * i + 1)%nat = r2 (2 * i + 1)%nat /\
       c1 i = c2 i) ->
    RealTimeData.liveFrom r1 c1 index roads = RealTimeData.liveFrom r2 c2 index roads.
Proof.
  induction roads as [|road rest IH]; intros index H; [reflexivity|].
  cbn [RealTimeData.liveFrom]. f_equal.
  - destruct (H index) as (E0 & E1 & Ec); [cbn [List.length]; lia|].
    unfold RealTimeData.liveEntry. now rewrite E0, E1, Ec.
  - apply IH. intros i Hi. apply H. cbn [List.length]. lia.
Qed.

(** X21.  The data of the map and of the live list are made of the draws of
    [Math.random()] and of the readings of the clock, and of nothing else:
    two runs of [generateMockTrafficData] that see the same thirty draws
    and the same ten readings return the same points, two runs of the
    live list that see the same sixteen draws and eight readings the same
    entries.  The draws do show: the congestion levels of the live list
    are its odd draws as they come, and its times are the readings of the
    clock. *)
Theorem mock_data_reads :
  (forall env1 env2,
      (forall k, (k < 30)%nat -> TrafficMap.random env1 k = TrafficMap.random env2 k) ->
      (forall i, (i < 10)%nat ->
         TrafficMap.getHours env1 i = TrafficMap.getHours env2 i /\
         TrafficMap.toISOString env1 i = TrafficMap.toISOString env2 i) ->
      TrafficMap.generateMockTrafficData env1
      = TrafficMap.generateMockTrafficData env2) /\
  (forall r1 c1 r2 c2,
      (forall k, (k < 16)%nat -> r1 k = r2 k) ->
      (forall i, (i < 8)%nat -> c1 i = c2 i) ->
      RealTimeData.newLiveData r1 c1 = RealTimeData.newLiveData r2 c2) /\
  (forall r c,
      map RealTimeData.congestion_level (RealTimeData.newLiveData r c)
      = map (fun i => r (2 * i + 1)%nat) (seq 0 8) /\
      map RealTimeData.last_update (RealTimeData.newLiveData r c)
      = map c (seq 0 8)).
Proof.
  split; [|split].
  - intros env1 env2 Hr Hc. unfold TrafficMap.generateMockTrafficData.
    apply mockFrom_reads. intros i Hi.
    change (List.length TrafficMap.capeTownSegments) with 10%nat in Hi.
    destruct (Hc i) as [Eh Et]; [lia|].
    repeat split; try (apply Hr; lia); assumption.
  - intros r1 c1 r2 c2 Hr Hc. unfold RealTimeData.newLiveData.
    apply liveFrom_reads. intros i Hi.
    change (List.length RealTimeData.capeRoads) with 8%nat in Hi.
    repeat split; try (apply Hr; lia). apply Hc. lia.
  - intros r c. split; reflexivity.
Qed.

End MockInputs.
